(** * Audio waveform video overlay generator: a shallow embedding of main.py

    The development follows the script top-down in reverse: the byte and
    array helpers first (the parts of [wave] and [numpy] the script calls),
    then the renderer, the read/downmix/render loop, the encoder call, the
    workspace clean-up and the command-line entry point.

    Numbers.  Python integers are [Z]; frame counters, which only count up
    from zero, are [nat].  The script's floating-point values (means, time
    axis, axis limits) are modelled by exact rationals [Q]: every statement
    below that compares two such values compares results of the same
    operation on the same operands, or a value that numpy stores verbatim,
    so none of them depends on rounding.

    Collaborators.  What lies outside the script (the file system around
    the workspace, the encoder process, [wave.open], the file writes of
    the plotting library, the built-in [int]) is an explicit environment
    [Env]; the run itself is a state-and-exception computation over the
    workspace and a trace of the externally visible steps.  The workspace
    directory holds regular files and sub-directories; the order in which
    a directory listing comes is the environment's.  Two library routines
    the script relies on are written out: the adjustment the plotting
    library makes to axis limits that coincide, and the argument parser
    on command lines made of whole option strings and separate values.
    The texts the script prints are given in English. *)

From Stdlib Require Import ZArith QArith Qminmax Qabs Qfield Lqa List String.
From Stdlib Require Import Ascii Lia.
From Stdlib.Strings Require Import Byte.
From stdpp Require Import gmap strings list pretty.

Local Close Scope Q_scope.
Local Open Scope Z_scope.

(** ** Byte buffers and arrays *)

Module Numpy.

(** An array as numpy holds it after [frombuffer] (dtype int16) or after
    [mean] (dtype float64). *)
Inductive ndarray : Type :=
| Int16Arr (xs : list Z)
| Float64Arr (xs : list Q).

Definition len (a : ndarray) : nat :=
  match a with
  | Int16Arr xs => length xs
  | Float64Arr xs => length xs
  end.

(** The values of an array widened to floating point. *)
Definition values (a : ndarray) : list Q :=
  match a with
  | Int16Arr xs => map inject_Z xs
  | Float64Arr xs => xs
  end.

(** One little-endian two's complement 16-bit sample. *)
Definition int16_of_bytes (lo hi : byte) : Z :=
  let u := Z.of_N (Byte.to_N lo) + 256 * Z.of_N (Byte.to_N hi) in
  if u <? 32768 then u else u - 65536.

(** [np.frombuffer(raw, dtype=np.int16)]: [None] stands for the
    [ValueError] numpy raises when the buffer size is odd. *)
Fixpoint frombuffer_int16 (raw : list byte) : option (list Z) :=
  match raw with
  | [] => Some []
  | [_] => None
  | lo :: hi :: raw' =>
      match frombuffer_int16 raw' with
      | Some xs => Some (int16_of_bytes lo hi :: xs)
      | None => None
      end
  end.

(** [data.reshape(-1, n)]: row [i] is the slice [i*n .. i*n+n-1];
    [None] is the [ValueError] for a size that [n] does not divide. *)
Definition reshape_rows (xs : list Z) (n : nat) : option (list (list Z)) :=
  match n with
  | O => None
  | S _ =>
      if (length xs mod n =? 0)%nat
      then Some (map (fun i => take n (drop (i * n) xs))
                     (seq 0 (length xs / n)))
      else None
  end.

Definition sum_Z (xs : list Z) : Z := fold_right Z.add 0 xs.

(** The mean of one row: the sum divided by the number of entries. *)
Definition mean_row (row : list Z) : Q :=
  (inject_Z (sum_Z row) / inject_Z (Z.of_nat (length row)))%Q.

(** [rows.mean(axis=1)] *)
Definition mean_axis1 (rows : list (list Z)) : list Q := map mean_row rows.

(** [np.min] and [np.max]; [None] is the [ValueError] on an empty array. *)
Definition np_min (a : ndarray) : option Q :=
  match values a with
  | [] => None
  | v :: vs => Some (fold_left Qmin vs v)
  end.

Definition np_max (a : ndarray) : option Q :=
  match values a with
  | [] => None
  | v :: vs => Some (fold_left Qmax vs v)
  end.

Definition Q_of_nat (n : nat) : Q := inject_Z (Z.of_nat n).

(** Overwrite the last entry of a list ([y[-1] = v]). *)
Definition set_last (ys : list Q) (v : Q) : list Q :=
  match ys with
  | [] => []
  | _ :: _ => take (length ys - 1) ys ++ [v]
  end.

(** [np.linspace(start, stop, num)] with its default [endpoint=True].
    First the grid: [arange(0, num)] scaled by
    [step = (stop - start) / (num - 1)] and shifted by [start]. *)
Definition grid (start stop : Q) (num : nat) : list Q :=
  let div := (num - 1)%nat in
  let delta := (stop - start)%Q in
  let y := map Q_of_nat (seq 0 num) in
  let y :=
    if (0 <? div)%nat then
      let step := (delta / Q_of_nat div)%Q in
      if Qeq_bool step 0
      then map (fun v => (v / Q_of_nat div * delta)%Q) y
      else map (fun v => (v * step)%Q) y
    else map (fun v => (v * delta)%Q) y in
  map (fun v => (v + start)%Q) y.

(** Then, when [num > 1], the last entry is overwritten with [stop]
    itself. *)
Definition linspace (start stop : Q) (num : nat) : list Q :=
  let y := grid start stop num in
  if (1 <? num)%nat then set_last y stop else y.

End Numpy.

(** ** The wave reader *)

Module Wave.

(** An opened PCM file: the header fields the script reads and the bytes
    of the data chunk that have not been consumed yet. *)
Record Wave_read : Type := mkWave {
  framerate : Z;
  nchannels : Z;
  sampwidth : Z;
  nframes : Z;
  soundpos : Z;
  rest : list byte
}.

Definition framesize (w : Wave_read) : Z := nchannels w * sampwidth w.

(** [wav.readframes(n)]: nothing for [n = 0]; otherwise up to
    [n * framesize] bytes of what is left, everything that is left when
    the request is negative.  The position advances by the whole frames
    returned. *)
Definition readframes (w : Wave_read) (n : Z) : list byte * Wave_read :=
  if n =? 0 then ([], w)
  else
    let remaining := Z.of_nat (length (rest w)) in
    let size := n * framesize w in
    let size := if size <? 0 then remaining else size in
    let size := if remaining <? size then remaining else size in
    let data := take (Z.to_nat size) (rest w) in
    (data,
     mkWave (framerate w) (nchannels w) (sampwidth w) (nframes w)
            (soundpos w + Z.of_nat (length data) / framesize w)
            (drop (Z.to_nat size) (rest w))).

(** A 16-bit PCM stream as the specification describes it: positive
    rate, at least one channel, and a data chunk of exactly [nframes]
    whole frames, none read yet. *)
Definition well_formed (w : Wave_read) : Prop :=
  0 < framerate w /\ 1 <= nchannels w /\ sampwidth w = 2 /\
  0 <= nframes w /\ soundpos w = 0 /\
  Z.of_nat (length (rest w)) = nframes w * framesize w.

End Wave.

(** ** Strings and paths *)

Module Paths.

Fixpoint zeros (n : nat) : string :=
  match n with
  | O => EmptyString
  | S n' => String "0" (zeros n')
  end.

(** Right-justify [s] in a field of [width] characters, filling with
    ['0']; a longer [s] is left as it is. *)
Definition zfill (width : nat) (s : string) : string :=
  zeros (width - String.length s) +:+ s.

(** The format specification [05d] applied to a non-negative integer. *)
Definition format_05d (n : nat) : string := zfill 5 (pretty n).

(** [f"frame_{frame_idx:05d}.png"] *)
Definition frame_name (frame_idx : nat) : string :=
  "frame_" +:+ format_05d frame_idx +:+ ".png".

(** [Path(dir) / name] rendered as a string. *)
Definition join (dir name : string) : string := dir +:+ "/" +:+ name.

(** [suffix] is a suffix of [s]. *)
Fixpoint ends_with (suffix s : string) : bool :=
  match s with
  | EmptyString => String.eqb suffix EmptyString
  | String _ s' => String.eqb suffix s || ends_with suffix s'
  end.

(** The names [temp_dir.glob("*.png")] selects. *)
Definition glob_png (name : string) : bool := ends_with ".png" name.

(** The sequence pattern of the encoder's image reader, as the library
    that implements it expands one frame number: the characters of the
    pattern are copied, and a directive [%], optional decimal width,
    [d] is replaced by the number printed zero-padded to that width;
    [%%] is a literal percent sign, any other directive is an error. *)
Definition digit_of (c : ascii) : option nat :=
  let n := nat_of_ascii c in
  if ((48 <=? n) && (n <=? 57))%nat then Some (n - 48)%nat else None.

Fixpoint expand_directive (p : string) (nd : nat) (number : nat)
         (k : string -> option string) : option string :=
  match p with
  | EmptyString => None
  | String c p' =>
      match digit_of c with
      | Some d => expand_directive p' (nd * 10 + d) number k
      | None =>
          if Ascii.eqb c "d" then
            match k p' with
            | Some tl => Some (zfill nd (pretty number) +:+ tl)
            | None => None
            end
          else if Ascii.eqb c "%" then
            match k p' with
            | Some tl => Some (String "%" tl)
            | None => None
            end
          else None
      end
  end.

Fixpoint get_frame_filename (fuel : nat) (p : string) (number : nat)
  : option string :=
  match fuel with
  | O => None
  | S fuel' =>
      match p with
      | EmptyString => Some EmptyString
      | String c p' =>
          if Ascii.eqb c "%" then
            expand_directive p' 0 number
              (fun q => get_frame_filename fuel' q number)
          else
            match get_frame_filename fuel' p' number with
            | Some tl => Some (String c tl)
            | None => None
            end
      end
  end.

Definition expand_pattern (p : string) (number : nat) : option string :=
  get_frame_filename (S (String.length p)) p number.

(** [s] without the prefix [p], when it has that prefix. *)
Fixpoint strip_prefix (p s : string) : option string :=
  match p, s with
  | EmptyString, _ => Some s
  | String c p', String c' s' =>
      if Ascii.eqb c c' then strip_prefix p' s' else None
  | String _ _, EmptyString => None
  end.

Fixpoint has_separator (s : string) : bool :=
  match s with
  | EmptyString => false
  | String c s' => Ascii.eqb c "/" || has_separator s'
  end.

(** The entry of the directory [dir] that a path spelled [dir/name]
    denotes.  Other spellings of a place inside the directory are for the
    file system to resolve. *)
Definition entry_of (dir path : string) : option string :=
  match strip_prefix (dir +:+ "/") path with
  | Some name =>
      if has_separator name || String.eqb name EmptyString then None
      else Some name
  | None => None
  end.

End Paths.

(** ** Axis limits *)

(** What the plotting library does with the limits handed to [set_xlim]
    and [set_ylim] before it stores them: limits that coincide, or nearly
    so, are moved apart. *)
Module Matplotlib.

(** [np.finfo(float).tiny], the smallest positive normal double. *)
Definition float_tiny : Q := (1 # 2 ^ 1022)%Q.

Definition Qltb (x y : Q) : bool := negb (Qle_bool y x).

(** [transforms.nonsingular(vmin, vmax, expander, tiny)] on finite
    values, with [increasing=True]. *)
Definition nonsingular (vmin vmax expander tiny : Q) : Q * Q :=
  let '(vmin, vmax) :=
    if Qltb vmax vmin then (vmax, vmin) else (vmin, vmax) in
  let maxabsvalue := Qmax (Qabs vmin) (Qabs vmax) in
  if Qltb maxabsvalue ((1000000 / tiny) * float_tiny)%Q then
    ((- expander)%Q, expander)
  else if Qle_bool (vmax - vmin) (maxabsvalue * tiny) then
    if Qeq_bool vmax 0 && Qeq_bool vmin 0 then ((- expander)%Q, expander)
    else ((vmin - expander * Qabs vmin)%Q, (vmax + expander * Qabs vmax)%Q)
  else (vmin, vmax).

(** [Locator.nonsingular], which the locator of a linear axis uses:
    [expander=.05] and the default [tiny=1e-15]. *)
Definition locator_nonsingular (v0 v1 : Q) : Q * Q :=
  nonsingular v0 v1 (5 # 100)%Q (1 # 10 ^ 15)%Q.

(** [Axis._set_lim] on a linear axis: the limits the axis ends up
    with. *)
Definition set_lim (v0 v1 : Q) : Q * Q :=
  let reverse := Qltb v1 v0 in
  let '(v0, v1) := locator_nonsingular v0 v1 in
  if reverse then (v1, v0) else (v0, v1).

End Matplotlib.

(** ** The world the script runs in *)

(** Python exceptions the script can meet. *)
Inductive exn : Type :=
| SystemExit (code : Z)
| CalledProcessError (returncode : Z)
| FileNotFoundError
| PermissionError
| FileExistsError
| NotADirectoryError
| IsADirectoryError
| DirectoryNotEmpty
| WaveError
| ZeroDivisionError
| ValueError
| SavefigError.

(** The outcome of a computation: a value, a raised exception, or the
    loop bound of the model exhausted (shown below never to happen). *)
Inductive result (A : Type) : Type :=
| Ok (a : A)
| Raise (e : exn)
| OutOfFuel.
Arguments Ok {A} a.
Arguments Raise {A} e.
Arguments OutOfFuel {A}.

(** What the script hands to the plotting library for one frame: the
    time axis and the series of the curve, its colour, and the limits
    passed to [set_xlim] and [set_ylim]. *)
Record Plot : Type := mkPlot {
  plot_time : list Q;
  plot_data : Numpy.ndarray;
  plot_color : Q * Q * Q * Q;
  plot_xlim : Q * Q;
  plot_ylim : Q * Q
}.

(** The vertical limits the axes of a frame end up with, once
    [set_ylim] has stored them. *)
Definition axis_ylim (p : Plot) : Q * Q :=
  Matplotlib.set_lim (fst (plot_ylim p)) (snd (plot_ylim p)).

(** An entry of the workspace directory: a frame the renderer wrote, any
    other regular file, or a sub-directory. *)
Inductive file : Type :=
| PngFrame (p : Plot)
| OtherFile
| SubDir.

(** What lives at the path [temp_dir]. *)
Inductive node : Type :=
| Absent
| RegularFile
| Dir (entries : gmap string file).

(** What [subprocess.run(..., check=True)] can do. *)
Inductive run_result : Type :=
| RunOk
| RunNonZero (returncode : Z)
| RunNotFound
| RunPermissionDenied.

Inductive event : Type :=
| EvProbe (cmd : list string)
| EvSetupFigure
| EvMkdir (path : string)
| EvOpen (path : string)
| EvSavefig (frame_idx : nat) (path : string) (p : Plot)
| EvProgress (pos total : Z)
| EvEncode (cmd : list string)
| EvPrint (msg : string)
| EvUnlinkPngs (path : string)
| EvRmdir (path : string).

Record World : Type := mkWorld {
  temp : node;
  trace : list event
}.

(** The arguments of the script, parsed. *)
Record Args : Type := mkArgs {
  arg_input : string;
  arg_output : string;
  arg_width : Z;
  arg_height : Z;
  arg_color : string;
  arg_fps : Z;
  arg_ffmpeg : string
}.

(** What the argument parser makes of a command line: the arguments, a
    usage error, or the help text. *)
Inductive parse_outcome : Type :=
| Parsed (args : Args)
| UsageError
| HelpShown.

(** The collaborators outside the script: whether the input path exists,
    what the encoder does when probed and when run, what [wave.open]
    gives ([None] when it raises), whether writing frame [i] succeeds
    (for whatever reason a write can fail), and the built-in [int(s, 16)]
    ([None] when it raises [ValueError]).  Further: whether an encoder
    run that fails leaves an output file behind; the entry of the
    workspace directory a path denotes, if it denotes one; which of the
    names still pending a directory listing yields next; the built-in
    [int(s)]; and what the argument parser makes of a command line that
    uses its further ways of writing options (see [plain_token]). *)
Record Env : Type := mkEnv {
  input_exists : bool;
  probe : run_result;
  open_wav : option Wave.Wave_read;
  savefig_ok : nat -> bool;
  encode : run_result;
  int_base16 : string -> option Z;
  partial_output : bool;
  workspace_entry : string -> option string;
  glob_next : list string -> nat;
  int_base10 : string -> option Z;
  parse_further : list string -> parse_outcome
}.

Record Config : Type := mkConfig {
  width : Z;
  height : Z;
  wave_color : string;
  fps : Z;
  temp_dir : string;
  ffmpeg_path : string
}.

(** ** A state and exception monad *)

Definition M (A : Type) : Type := World -> result A * World.

Definition ret {A} (a : A) : M A := fun s => (Ok a, s).

Definition raise {A} (e : exn) : M A := fun s => (Raise e, s).

Definition bind {A B} (m : M A) (f : A -> M B) : M B :=
  fun s =>
    match m s with
    | (Ok a, s') => f a s'
    | (Raise e, s') => (Raise e, s')
    | (OutOfFuel, s') => (OutOfFuel, s')
    end.

Notation "'do' x <- m ; k" := (bind m (fun x => k))
  (at level 10, x name, m at level 100, k at level 200).
Notation "'run' m ; k" := (bind m (fun _ => k))
  (at level 10, m at level 100, k at level 200).

Definition emit (e : event) : M unit :=
  fun s => (Ok tt, mkWorld (temp s) (trace s ++ [e])).

Definition get_temp : M node := fun s => (Ok (temp s), s).

Definition set_temp (n : node) : M unit :=
  fun s => (Ok tt, mkWorld n (trace s)).

Definition lift {A} (r : result A) : M A := fun s => (r, s).

(** [try: body finally: fin].  The finaliser runs whatever the body did;
    an exception of the finaliser replaces the body's outcome. *)
Definition try_finally {A} (body : M A) (fin : M unit) : M A :=
  fun s =>
    match body s with
    | (OutOfFuel, s') => (OutOfFuel, s')
    | (r, s') =>
        match fin s' with
        | (Ok _, s'') => (r, s'')
        | (Raise e, s'') => (Raise e, s'')
        | (OutOfFuel, s'') => (OutOfFuel, s'')
        end
    end.

(** [try: body except <handled>: handler]. *)
Definition try_except {A} (body : M A) (handled : exn -> bool)
           (handler : exn -> M A) : M A :=
  fun s =>
    match body s with
    | (Raise e, s') => if handled e then handler e s' else (Raise e, s')
    | r => r
    end.

(** [subprocess.run(cmd, check=True)] under a given behaviour. *)
Definition subprocess_run (behaviour : run_result) : M unit :=
  match behaviour with
  | RunOk => ret tt
  | RunNonZero rc => raise (CalledProcessError rc)
  | RunNotFound => raise FileNotFoundError
  | RunPermissionDenied => raise PermissionError
  end.

Definition is_CalledProcessError (e : exn) : bool :=
  match e with CalledProcessError _ => true | _ => false end.

Definition is_FileNotFoundError (e : exn) : bool :=
  match e with FileNotFoundError => true | _ => false end.

(** ** Colours *)

(** [hex_color.lstrip('#')] *)
Fixpoint lstrip_hash (s : string) : string :=
  match s with
  | String "#"%char s' => lstrip_hash s'
  | _ => s
  end.

Definition in_unit_interval (x : Q) : bool :=
  Qle_bool 0 x && Qle_bool x 1.

Definition rgba_in_range (c : Q * Q * Q * Q) : bool :=
  let '(r, g, b, a) := c in
  in_unit_interval r && in_unit_interval g && in_unit_interval b
  && in_unit_interval a.

(** The digits-only part of [int(s, 16)]: a non-empty string of
    hexadecimal digits.  (The built-in also accepts a sign, surrounding
    blanks and a [0x] prefix; the general statements below take the
    built-in as given by the environment, and this function stands in
    for it in the concrete runs.) *)
Module PyInt.

Definition hex_digit (c : ascii) : option Z :=
  let n := Z.of_nat (nat_of_ascii c) in
  if (48 <=? n) && (n <=? 57) then Some (n - 48)
  else if (97 <=? n) && (n <=? 102) then Some (n - 87)
  else if (65 <=? n) && (n <=? 70) then Some (n - 55)
  else None.

Fixpoint hex_digits_from (acc : Z) (s : string) : option Z :=
  match s with
  | EmptyString => Some acc
  | String c s' =>
      match hex_digit c with
      | Some d => hex_digits_from (16 * acc + d) s'
      | None => None
      end
  end.

Definition int_hex (s : string) : option Z :=
  match s with
  | EmptyString => None
  | _ => hex_digits_from 0 s
  end.

(** The digits-only part of [int(s)], in the same way. *)
Definition dec_digit (c : ascii) : option Z :=
  let n := Z.of_nat (nat_of_ascii c) in
  if (48 <=? n) && (n <=? 57) then Some (n - 48) else None.

Fixpoint dec_digits_from (acc : Z) (s : string) : option Z :=
  match s with
  | EmptyString => Some acc
  | String c s' =>
      match dec_digit c with
      | Some d => dec_digits_from (10 * acc + d) s'
      | None => None
      end
  end.

Definition int_dec (s : string) : option Z :=
  match s with
  | EmptyString => None
  | _ => dec_digits_from 0 s
  end.

End PyInt.

(** ** The converter *)

Section Converter.

Variable env : Env.
Variable config : Config.

(** [_validate_ffmpeg] *)
Definition validate_ffmpeg : M unit :=
  try_except
    (run emit (EvProbe [ffmpeg_path config; "-version"]);
     subprocess_run (probe env))
    (fun e => is_FileNotFoundError e || is_CalledProcessError e)
    (fun _ =>
       run emit (EvPrint "ffmpeg not found: install it or give an absolute path");
       run emit (EvPrint "download: https://ffmpeg.org/download.html");
       raise (SystemExit 1)).

(** [_setup_matplotlib] *)
Definition setup_matplotlib : M unit := emit EvSetupFigure.

(** [__init__] *)
Definition init : M unit :=
  run validate_ffmpeg; setup_matplotlib.

(** [_hex_to_rgba]: the leading [#] characters are stripped, the three
    two-character slices are read in base 16 and divided by 255, and the
    alpha component is 1.  [None] is the [ValueError] of [int]. *)
Definition hex_to_rgba (hex_color : string) : option (Q * Q * Q * Q) :=
  let hex_color := lstrip_hash hex_color in
  match int_base16 env (substring 0 2 hex_color),
        int_base16 env (substring 2 2 hex_color),
        int_base16 env (substring 4 2 hex_color) with
  | Some r, Some g, Some b =>
      Some ((inject_Z r / 255)%Q, (inject_Z g / 255)%Q,
            (inject_Z b / 255)%Q, 1%Q)
  | _, _, _ => None
  end.

(** The drawing part of [_render_frame]: time axis, curve (whose colour
    the plotting library refuses with a [ValueError] when a component is
    outside the unit interval) and axis limits. *)
Definition plot_frame (data : Numpy.ndarray) (sample_rate : Z)
  : result Plot :=
  if sample_rate =? 0 then Raise ZeroDivisionError
  else
    let duration :=
      (Numpy.Q_of_nat (Numpy.len data) / inject_Z sample_rate)%Q in
    let time := Numpy.linspace 0%Q duration (Numpy.len data) in
    match hex_to_rgba (wave_color config) with
    | Some color =>
        if rgba_in_range color then
          match Numpy.np_min data, Numpy.np_max data with
          | Some lo, Some hi =>
              Ok (mkPlot time data color
                         (0%Q, duration)
                         ((lo * (11 # 10))%Q, (hi * (11 # 10))%Q))
          | _, _ => Raise ValueError
          end
        else Raise ValueError
    | None => Raise ValueError
    end.

(** [plt.savefig(frame_path, ...)]: the file is created in the
    workspace directory, replacing one of the same name.  Whether the
    write goes through is the environment's word. *)
Definition savefig (frame_idx : nat) (p : Plot) : M unit :=
  let name := Paths.frame_name frame_idx in
  run emit (EvSavefig frame_idx (Paths.join (temp_dir config) name) p);
  if savefig_ok env frame_idx then
    do t <- get_temp;
    match t with
    | Dir entries => set_temp (Dir (<[name := PngFrame p]> entries))
    | _ => raise FileNotFoundError
    end
  else raise SavefigError.

(** [_render_frame] *)
Definition render_frame (data : Numpy.ndarray) (frame_idx : nat)
           (sample_rate : Z) : M unit :=
  do p <- lift (plot_frame data sample_rate);
  savefig frame_idx p.

(** The two array steps of the loop body: decode the block, then fold
    the channels when there is more than one. *)
Definition downmix (xs : list Z) (num_channels : Z)
  : result Numpy.ndarray :=
  if 1 <? num_channels then
    match Numpy.reshape_rows xs (Z.to_nat num_channels) with
    | Some rows => Ok (Numpy.Float64Arr (Numpy.mean_axis1 rows))
    | None => Raise ValueError
    end
  else Ok (Numpy.Int16Arr xs).

Definition decode (raw_data : list byte) (num_channels : Z)
  : result Numpy.ndarray :=
  match Numpy.frombuffer_int16 raw_data with
  | Some xs => downmix xs num_channels
  | None => Raise ValueError
  end.

(** The progress line: [wav.tell() / total_frames]. *)
Definition progress (pos total_frames : Z) : M unit :=
  if total_frames =? 0 then raise ZeroDivisionError
  else emit (EvProgress pos total_frames).

(** The [while True] loop of [convert]; the result is [frame_count]
    when the loop is left. *)
Fixpoint frame_loop (fuel : nat) (wav : Wave.Wave_read)
         (chunk_size num_channels sample_rate total_frames : Z)
         (frame_count : nat) : M nat :=
  match fuel with
  | O => lift OutOfFuel
  | S fuel' =>
      let '(raw_data, wav') := Wave.readframes wav chunk_size in
      match raw_data with
      | [] => ret frame_count
      | _ :: _ =>
          do data <- lift (decode raw_data num_channels);
          run render_frame data frame_count sample_rate;
          run progress (Wave.soundpos wav') total_frames;
          frame_loop fuel' wav' chunk_size num_channels sample_rate
                     total_frames (S frame_count)
      end
  end.

(** The argument list handed to the encoder. *)
Definition ffmpeg_cmd (input_wav output_video : string) : list string :=
  [ffmpeg_path config; "-y";
   "-framerate"; pretty (fps config);
   "-i"; Paths.join (temp_dir config) "frame_%05d.png";
   "-i"; input_wav;
   "-c:v"; "libx264";
   "-preset"; "medium";
   "-crf"; "20";
   "-pix_fmt"; "yuva420p";
   "-shortest";
   "-s"; pretty (width config) +:+ "x" +:+ pretty (height config);
   output_video].

(** The encoder writes its result to [output_video].  When that path
    denotes an entry of the workspace directory, the file appears there,
    replacing a regular file of the same name; a sub-directory of that
    name stays. *)
Definition with_output (output_video : string) (t : node) : node :=
  match t, workspace_entry env output_video with
  | Dir entries, Some name =>
      match entries !! name with
      | Some SubDir => t
      | _ => Dir (<[name := OtherFile]> entries)
      end
  | _, _ => t
  end.

Definition write_output (output_video : string) : M unit :=
  do t <- get_temp;
  set_temp (with_output output_video t).

(** The encoder process under [subprocess.run(cmd, check=True)]: a run
    that succeeds has written the output file, a run that exits with a
    non-zero status may have, a process that could not be started has
    not. *)
Definition run_encoder (output_video : string) : M unit :=
  run (match encode env with
       | RunOk => write_output output_video
       | RunNonZero _ =>
           if partial_output env then write_output output_video else ret tt
       | _ => ret tt
       end);
  subprocess_run (encode env).

(** [_encode_video] *)
Definition encode_video (input_wav output_video : string)
           (total_frames : nat) : M unit :=
  try_except
    (run emit (EvEncode (ffmpeg_cmd input_wav output_video));
     run run_encoder output_video;
     emit (EvPrint ("video written: " +:+ output_video)))
    is_CalledProcessError
    (fun _ =>
       run emit (EvPrint "video encoding failed");
       raise (SystemExit 1)).

(** [temp_dir.mkdir(exist_ok=True)] *)
Definition mkdir_exist_ok : M unit :=
  run emit (EvMkdir (temp_dir config));
  do t <- get_temp;
  match t with
  | Absent => set_temp (Dir ∅)
  | Dir _ => ret tt
  | RegularFile => raise FileExistsError
  end.

(** [f.unlink()] on an entry of the workspace directory, which is taken
    to be writable: a regular file goes, a sub-directory makes the call
    fail. *)
Definition unlink (name : string) : M unit :=
  do t <- get_temp;
  match t with
  | Dir entries =>
      match entries !! name with
      | Some SubDir => raise IsADirectoryError
      | Some _ => set_temp (Dir (delete name entries))
      | None => raise FileNotFoundError
      end
  | _ => raise FileNotFoundError
  end.

(** The names [temp_dir.glob("*.png")] yields for a directory, listed
    once, before the first of them is unlinked. *)
Definition png_names (entries : gmap string file) : list string :=
  (map_to_list (filter (fun kv => Paths.glob_png kv.1 = true) entries)).*1.

(** [for f in temp_dir.glob("*.png"): f.unlink()] over the [n] names
    still pending.  The order is the listing's: the environment picks
    which pending name comes next.  The first unlink that fails ends the
    loop. *)
Fixpoint unlink_each (n : nat) (pending : list string) : M unit :=
  match n with
  | O => ret tt
  | S n' =>
      let i := (glob_next env pending mod length pending)%nat in
      match pending !! i with
      | Some name =>
          run unlink name;
          unlink_each n' (delete i pending)
      | None => ret tt
      end
  end.

(** [temp_dir.rmdir()] *)
Definition rmdir : M unit :=
  do t <- get_temp;
  match t with
  | Dir entries =>
      if decide (entries = ∅) then set_temp Absent
      else raise DirectoryNotEmpty
  | Absent => raise FileNotFoundError
  | RegularFile => raise NotADirectoryError
  end.

(** The [finally] block: unlink every [*.png], then [rmdir].  The second
    step is reached only when every unlink went through. *)
Definition cleanup : M unit :=
  run emit (EvUnlinkPngs (temp_dir config));
  do t <- get_temp;
  run (match t with
       | Dir entries =>
           unlink_each (length (png_names entries)) (png_names entries)
       | _ => ret tt
       end);
  run emit (EvRmdir (temp_dir config));
  rmdir.

(** Python's [//] on integers. *)
Definition floordiv (a b : Z) : result Z :=
  if b =? 0 then Raise ZeroDivisionError else Ok (a / b).

(** The body of the [try] block of [convert]. *)
Definition convert_body (input_wav output_video : string) : M unit :=
  run emit (EvOpen input_wav);
  do wav <- (match open_wav env with
             | Some wav => ret wav
             | None => raise WaveError
             end);
  let sample_rate := Wave.framerate wav in
  let num_channels := Wave.nchannels wav in
  let total_frames := Wave.nframes wav in
  do chunk_size <- lift (floordiv sample_rate (fps config));
  do frame_count <-
     frame_loop (S (length (Wave.rest wav))) wav chunk_size num_channels
                sample_rate total_frames 0;
  encode_video input_wav output_video frame_count.

(** [convert] *)
Definition convert (input_wav output_video : string) : M unit :=
  run mkdir_exist_ok;
  try_finally (convert_body input_wav output_video) cleanup.

End Converter.

(** ** The command line *)

Definition DEFAULT_CONFIG : Config :=
  mkConfig 1920 400 "#C04851" 30 "_frames" "ffmpeg".












(** The configuration built from the parsed arguments. *)
Definition config_of (args : Args) : Config :=
  mkConfig (arg_width args) (arg_height args) (arg_color args)
           (arg_fps args) (temp_dir DEFAULT_CONFIG) (arg_ffmpeg args).

(** The script body after [parse_args]. *)
Definition main (env : Env) (args : Args) : M unit :=
  let config := config_of args in
  if input_exists env then
    run init env config;
    convert env config (arg_input args) (arg_output args)
  else
    run emit (EvPrint ("input file does not exist: " +:+ arg_input args));
    raise (SystemExit 1).


(** The exit status of the interpreter: the argument of [sys.exit], 1 for
    any other exception that reaches the top level, 0 otherwise. *)
Definition exit_status {A} (r : result A) : option Z :=
  match r with
  | Ok _ => Some 0
  | Raise (SystemExit code) => Some code
  | Raise _ => Some 1
  | OutOfFuel => None
  end.

(** A fresh process: nothing traced yet, [temp_dir] in a given state. *)
Definition initial_world (t : node) : World := mkWorld t [].

(** ** Reading the trace *)

(** The frames handed to [savefig], in order. *)
Fixpoint rendered (tr : list event) : list (nat * string * Plot) :=
  match tr with
  | [] => []
  | EvSavefig i path p :: tr' => (i, path, p) :: rendered tr'
  | _ :: tr' => rendered tr'
  end.

Definition is_probe (e : event) : bool :=
  match e with EvProbe _ => true | _ => false end.

(** Work of the conversion job proper: setting up the drawing surface,
    touching the workspace, reading the input, drawing or encoding. *)
Definition is_job_event (e : event) : bool :=
  match e with
  | EvSetupFigure | EvMkdir _ | EvOpen _ | EvSavefig _ _ _
  | EvProgress _ _ | EvEncode _ | EvUnlinkPngs _ | EvRmdir _ => true
  | _ => false
  end.






(** Ceiling of a quotient, for a positive divisor. *)
Definition ceil_div (a b : Z) : Z := - ((- a) / b).

(** ** Vocabulary of the statements *)

(** The samples of all [N] channels at time index [i] of an interleaved
    buffer. *)
Definition channel_samples (xs : list Z) (N i : nat) : list Z :=
  map (fun c => nth (i * N + c) xs 0) (seq 0 N).

Definition arithmetic_mean (cs : list Z) : Q :=
  (inject_Z (Numpy.sum_Z cs) / inject_Z (Z.of_nat (length cs)))%Q.

(** A chunk of [n] samples of silence. *)
Definition silent_chunk (n : nat) : Numpy.ndarray :=
  Numpy.Int16Arr (replicate n 0).

(** A string that does not begin with the character zero. *)
Definition no_leading_zero (s : string) : Prop :=
  match s with
  | EmptyString => True
  | String c _ => c <> "0"%char
  end.

(** The frames [k], [k+1], ... as [savefig] is called for them. *)
Definition frames_from (config : Config) (k : nat) (plots : list Plot)
  : list (nat * string * Plot) :=
  imap (fun j p =>
          ((k + j)%nat,
           Paths.join (temp_dir config) (Paths.frame_name (k + j)), p))
       plots.

(** ** Small concrete runs *)

(** Five mono frames at 4 Hz: ten data bytes. *)
Definition example_wav : Wave.Wave_read :=
  Wave.mkWave 4 1 2 5 0 (replicate 10 "001"%byte).

(** Everything outside the script works; paths are relative to the
    directory that holds [_frames], a listing comes in the order of the
    model's map, and the command lines are plain ones. *)
Definition example_env : Env :=
  mkEnv true RunOk (Some example_wav) (fun _ => true) RunOk PyInt.int_hex
        false (Paths.entry_of "_frames") (fun _ => 0%nat) PyInt.int_dec
        (fun _ => UsageError).


(** Two frames per second. *)
Definition example_args : Args :=
  mkArgs "in.wav" "output.mov" 1920 400 "#C04851" 2 "ffmpeg".

(** A workspace directory that already holds somebody's notes. *)
Definition occupied_workspace : node :=
  Dir {[ "notes.txt" := OtherFile ]}.

(** The configured colour is one the renderer can draw with. *)
Definition color_accepted (env : Env) (config : Config) : Prop :=
  exists rgba,
    hex_to_rgba env (wave_color config) = Some rgba /\
    rgba_in_range rgba = true.

(** What a computation adds to the trace, which exceptions leave it and
    how it moves the workspace: every new event satisfies [P], every
    exception satisfies [Q], the workspace before and after are related
    by [R], and the loop bound is not hit. *)
Definition sound (P : event -> Prop) (Q : exn -> Prop)
           (R : node -> node -> Prop) {A} (m : M A) : Prop :=
  forall s,
    (exists tr, trace (m s).2 = trace s ++ tr /\ Forall P tr) /\
    R (temp s) (temp (m s).2) /\
    match (m s).1 with
    | Ok _ => True
    | Raise e => Q e
    | OutOfFuel => False
    end.

(** What the [try] body of [convert] leaves of the workspace: it stays
    of the same kind; no sub-directory appears in it; and an entry whose
    name is not a [*.png], other than the one the encoder's output lands
    on, is as it was. *)
Definition workspace_kept (landing : option string) (t t' : node) : Prop :=
  match t, t' with
  | Absent, Absent => True
  | RegularFile, RegularFile => True
  | Dir d, Dir d' =>
      forall name,
        (d' !! name = Some SubDir -> d !! name = Some SubDir) /\
        (Paths.glob_png name = false -> landing <> Some name ->
         d' !! name = d !! name)
  | _, _ => False
  end.

Definition any_workspace (_ _ : node) : Prop := True.

Definition not_probe (e : event) : Prop := is_probe e = false.

Definition exits_with_1 (e : exn) : Prop :=
  match e with SystemExit code => code = 1 | _ => True end.

(** ** Vocabulary of the further statements *)


Definition is_encode (e : event) : bool :=
  match e with EvEncode _ => true | _ => false end.

(** The progress lines, in order: position reached and total. *)
Fixpoint progress_of (tr : list event) : list (Z * Z) :=
  match tr with
  | [] => []
  | EvProgress pos total :: tr' => (pos, total) :: progress_of tr'
  | _ :: tr' => progress_of tr'
  end.

(** A value within the range of a signed 16-bit sample. *)
Definition in_int16_range (v : Q) : Prop :=
  (inject_Z (-32768) <= v /\ v <= inject_Z 32767)%Q.




(** A string without a percent sign. *)
Fixpoint no_percent (s : string) : bool :=
  match s with
  | EmptyString => true
  | String c s' => negb (Ascii.eqb c "%") && no_percent s'
  end.

(** ** Further concrete inputs *)

(** Two samples above zero. *)
Definition loud_chunk : Numpy.ndarray := Numpy.Int16Arr [100; 200].

(** One stereo frame [(1, 3)] as four bytes. *)
Definition stereo_block : list byte :=
  ["001"%byte; "000"%byte; "003"%byte; "000"%byte].

(** The three-digit shorthand for white. *)
Definition shorthand_config : Config :=
  mkConfig 1920 400 "#FFF" 30 "_frames" "ffmpeg".

(** Minus two frames per second. *)
Definition backwards_config : Config :=
  mkConfig 1920 400 "#C04851" (-2) "_frames" "ffmpeg".

(** A stream of no frames at all. *)
Definition empty_wav : Wave.Wave_read := Wave.mkWave 4 1 2 0 0 [].

Definition empty_stream_env : Env :=
  mkEnv true RunOk (Some empty_wav) (fun _ => true) RunOk PyInt.int_hex
        false (Paths.entry_of "_frames") (fun _ => 0%nat) PyInt.int_dec
        (fun _ => UsageError).





(** * Facts *)

(** ** Arrays *)

Module NumpyFacts.
Import Numpy.

Lemma frombuffer_int16_even (n : nat) : forall raw : list byte,
  length raw = (2 * n)%nat ->
  exists xs, frombuffer_int16 raw = Some xs /\ length xs = n.
Proof.
  induction n as [|n IH]; intros raw Hlen.
  - destruct raw; [|discriminate]. exists []. split; reflexivity.
  - destruct raw as [|lo [|hi raw']]; simpl in Hlen; try lia.
    destruct (IH raw') as (xs & Hxs & Hl); [lia|].
    exists (int16_of_bytes lo hi :: xs). simpl.
    rewrite Hxs, Hl. split; reflexivity.
Qed.

(** A slice of a list, read entry by entry. *)
Lemma take_drop_nth (d : Z) (n k : nat) (xs : list Z) :
  (k + n <= length xs)%nat ->
  take n (drop k xs) = map (fun c => nth (k + c) xs d) (seq 0 n).
Proof.
  intros Hle. apply list_eq. intros i.
  destruct (decide (i < n)%nat) as [Hi|Hi].
  - rewrite lookup_take_lt by lia. rewrite lookup_drop.
    rewrite list_lookup_fmap, lookup_seq_lt by lia. simpl.
    destruct (nth_lookup_or_length xs (k + i) d) as [->|]; [reflexivity|lia].
  - rewrite lookup_take_ge by lia.
    rewrite list_lookup_fmap, lookup_seq_ge by lia. reflexivity.
Qed.

Lemma reshape_rows_exact (xs : list Z) (n rows : nat) :
  (0 < n)%nat -> length xs = (rows * n)%nat ->
  reshape_rows xs n
  = Some (map (fun i => take n (drop (i * n) xs)) (seq 0 rows)).
Proof.
  intros Hn Hlen. unfold reshape_rows. destruct n as [|n']; [lia|].
  rewrite Hlen, Nat.Div0.mod_mul, Nat.div_mul by lia. reflexivity.
Qed.

(** Rows of a buffer that repeats one frame. *)
Lemma take_drop_repeat (cs : list Z) (rows i : nat) :
  (i < rows)%nat ->
  take (length cs) (drop (i * length cs) (concat (replicate rows cs))) = cs.
Proof.
  revert i. induction rows as [|rows IH]; intros i Hi; [lia|].
  cbn [replicate concat]. destruct i as [|i].
  - rewrite Nat.mul_0_l, drop_0, take_app_length. reflexivity.
  - replace (S i * length cs)%nat with (length cs + i * length cs)%nat by lia.
    rewrite drop_app_add'; [|reflexivity]. apply IH. lia.
Qed.

End NumpyFacts.

Section DownmixFacts.
Import Numpy NumpyFacts.

Lemma downmix_multi (xs : list Z) (N L : nat) :
  (1 < N)%nat -> length xs = (L * N)%nat ->
  downmix xs (Z.of_nat N)
  = Ok (Float64Arr
          (map (fun i => mean_row (take N (drop (i * N) xs))) (seq 0 L))).
Proof.
  intros HN Hlen. unfold downmix.
  destruct (1 <? Z.of_nat N) eqn:E; [|apply Z.ltb_ge in E; lia].
  rewrite Nat2Z.id, (reshape_rows_exact xs N L) by lia.
  unfold mean_axis1. rewrite map_map. reflexivity.
Qed.

(** C4.  For [N > 1] channels and an interleaved block of [L] sample
    frames, the downmix succeeds with a floating-point series of length
    [L] whatever [N] is, whose entry at time index [i] is the sum of the
    [N] samples at that index divided by [N]; and when the block repeats
    one frame [c1..cN], every entry is the arithmetic mean of [c1..cN]. *)
Theorem downmix_channel_mean (xs : list Z) (N L : nat) :
  (1 < N)%nat -> length xs = (L * N)%nat ->
  exists ys,
    downmix xs (Z.of_nat N) = Ok (Float64Arr ys) /\
    length ys = L /\
    (forall i, (i < L)%nat ->
       ys !! i = Some (inject_Z (sum_Z (channel_samples xs N i))
                       / inject_Z (Z.of_nat N))%Q) /\
    (forall cs, length cs = N -> xs = concat (replicate L cs) ->
       ys = replicate L (arithmetic_mean cs)).
Proof.
  intros HN Hlen. eexists. split; [apply (downmix_multi xs N L HN Hlen)|].
  split; [rewrite length_map, length_seq; reflexivity|]. split.
  - intros i Hi. rewrite list_lookup_fmap, lookup_seq_lt by lia. simpl.
    rewrite (take_drop_nth 0) by nia. unfold mean_row, channel_samples.
    rewrite length_map, length_seq. reflexivity.
  - intros cs Hcs ->. apply list_eq. intros i.
    destruct (decide (i < L)%nat) as [Hi|Hi].
    + rewrite list_lookup_fmap, lookup_seq_lt by lia. simpl.
      rewrite <- Hcs, take_drop_repeat by lia.
      symmetry. apply lookup_replicate_2. lia.
    + rewrite list_lookup_fmap, lookup_seq_ge by lia. simpl.
      symmetry. apply lookup_replicate_None. lia.
Qed.

(** C5.  With one channel the downmix step hands the decoded samples on as
    they are: the array is the input array, of the same length, and each
    entry widened to floating point is the input sample at that index. *)
Theorem downmix_mono_identity (xs : list Z) :
  downmix xs 1 = Ok (Int16Arr xs) /\
  len (Int16Arr xs) = length xs /\
  (forall i x, xs !! i = Some x ->
     values (Int16Arr xs) !! i = Some (inject_Z x)) /\
  (forall raw, frombuffer_int16 raw = Some xs ->
     decode raw 1 = Ok (Int16Arr xs)).
Proof.
  split; [reflexivity|]. split; [reflexivity|]. split.
  - intros i x Hx. simpl. rewrite list_lookup_fmap, Hx. reflexivity.
  - intros raw Hraw. unfold decode. rewrite Hraw. reflexivity.
Qed.
End DownmixFacts.

(** ** The time axis *)

Module LinspaceFacts.
Import Numpy.

Lemma Q_of_nat_nonneg n : (0 <= Q_of_nat n)%Q.
Proof. unfold Q_of_nat, Qle. simpl. lia. Qed.

Lemma Q_of_nat_pos n : (0 < n)%nat -> (0 < Q_of_nat n)%Q.
Proof. intros H. unfold Q_of_nat, Qlt. simpl. lia. Qed.

Lemma Q_of_nat_le n m : (n <= m)%nat -> (Q_of_nat n <= Q_of_nat m)%Q.
Proof. intros H. unfold Q_of_nat, Qle. simpl. lia. Qed.

Lemma length_set_last ys v : length (set_last ys v) = length ys.
Proof.
  destruct ys as [|y ys]; [reflexivity|]. unfold set_last.
  rewrite length_app, length_take. simpl. lia.
Qed.

Lemma set_last_lookup_lt ys v i :
  (S i < length ys)%nat -> set_last ys v !! i = ys !! i.
Proof.
  intros Hi. destruct ys as [|y ys]; [simpl in Hi; lia|]. unfold set_last.
  rewrite lookup_app_l by (rewrite length_take; lia).
  apply lookup_take_lt. lia.
Qed.

Lemma set_last_last ys v : ys <> [] -> last (set_last ys v) = Some v.
Proof.
  intros Hne. destruct ys as [|y ys]; [congruence|]. unfold set_last.
  apply last_snoc.
Qed.

Lemma set_last_lookup_last ys v :
  ys <> [] -> set_last ys v !! (length ys - 1)%nat = Some v.
Proof.
  intros Hne. destruct ys as [|y ys]; [congruence|]. unfold set_last.
  rewrite lookup_app_r by (rewrite length_take; lia).
  rewrite length_take. replace (_ - _)%nat with 0%nat by lia. reflexivity.
Qed.

Lemma length_grid start stop num : length (grid start stop num) = num.
Proof.
  unfold grid. destruct (0 <? num - 1)%nat; [destruct (Qeq_bool _ _)|];
    rewrite !length_map, length_seq; reflexivity.
Qed.

Lemma grid_lookup start stop num i t :
  grid start stop num !! i = Some t ->
  (i < num)%nat /\
  (t == start + Q_of_nat i * ((stop - start) / Q_of_nat (num - 1)))%Q.
Proof.
  intros Ht. assert (Hi : (i < num)%nat).
  { apply lookup_lt_Some in Ht. rewrite length_grid in Ht. exact Ht. }
  split; [exact Hi|]. revert Ht. unfold grid.
  destruct (0 <? num - 1)%nat eqn:Ediv.
  - apply Nat.ltb_lt in Ediv.
    assert (Hnz : ~ (Q_of_nat (num - 1) == 0)%Q).
    { intros H0. pose proof (Q_of_nat_pos (num - 1) Ediv) as Hp.
      rewrite H0 in Hp. exact (Qlt_irrefl _ Hp). }
    destruct (Qeq_bool _ _);
      rewrite !list_lookup_fmap, lookup_seq_lt by lia; simpl;
      intros [= <-]; field; exact Hnz.
  - apply Nat.ltb_ge in Ediv. assert (i = 0)%nat as -> by lia.
    rewrite !list_lookup_fmap, lookup_seq_lt by lia; simpl.
    intros [= <-]. unfold Q_of_nat. simpl. ring.
Qed.

Lemma length_linspace start stop num : length (linspace start stop num) = num.
Proof.
  unfold linspace. destruct (1 <? num)%nat;
    rewrite ?length_set_last; apply length_grid.
Qed.

Lemma linspace_last start stop num :
  (2 <= num)%nat -> last (linspace start stop num) = Some stop.
Proof.
  intros Hn. unfold linspace.
  destruct (1 <? num)%nat eqn:E; [|apply Nat.ltb_ge in E; lia].
  apply set_last_last. intros H0. apply (f_equal length) in H0.
  rewrite length_grid in H0. simpl in H0. lia.
Qed.

(** Every point of the axis sits on the even grid of step
    [(stop - start) / (num - 1)]; the last one is [stop] itself. *)
Lemma linspace_lookup start stop num i t :
  linspace start stop num !! i = Some t ->
  (i < num)%nat /\
  (t == start + Q_of_nat i * ((stop - start) / Q_of_nat (num - 1)))%Q.
Proof.
  unfold linspace. destruct (1 <? num)%nat eqn:E.
  - apply Nat.ltb_lt in E. intros Ht.
    assert (Hi : (i < num)%nat).
    { apply lookup_lt_Some in Ht.
      rewrite length_set_last, length_grid in Ht. exact Ht. }
    split; [exact Hi|].
    destruct (decide (S i < num)%nat) as [Hlt|Hge].
    + rewrite set_last_lookup_lt in Ht by (rewrite length_grid; lia).
      apply grid_lookup in Ht. tauto.
    + assert (i = length (grid start stop num) - 1)%nat as Hi'
          by (rewrite length_grid; lia).
      rewrite Hi', set_last_lookup_last in Ht.
      2:{ intros H0. apply (f_equal length) in H0.
          rewrite length_grid in H0. simpl in H0. lia. }
      injection Ht as <-. rewrite length_grid in Hi'. rewrite Hi'.
      assert (Hnz : ~ (Q_of_nat (num - 1) == 0)%Q).
      { intros H0. pose proof (Q_of_nat_pos (num - 1) ltac:(lia)) as Hp.
        rewrite H0 in Hp. exact (Qlt_irrefl _ Hp). }
      field. exact Hnz.
  - apply grid_lookup.
Qed.

End LinspaceFacts.

(** ** The renderer *)

Section PlotFacts.
Import Numpy LinspaceFacts.

Lemma Qmin_diag c : Qmin c c = c.
Proof. unfold Qmin, GenericMinMax.gmin. destruct (c ?= c)%Q; reflexivity. Qed.

Lemma Qmax_diag c : Qmax c c = c.
Proof. unfold Qmax, GenericMinMax.gmax. destruct (c ?= c)%Q; reflexivity. Qed.

Lemma fold_Qmin_replicate n c : fold_left Qmin (replicate n c) c = c.
Proof. induction n as [|n IH]; simpl; [|rewrite Qmin_diag]; auto. Qed.

Lemma fold_Qmax_replicate n c : fold_left Qmax (replicate n c) c = c.
Proof. induction n as [|n IH]; simpl; [|rewrite Qmax_diag]; auto. Qed.

Lemma plot_frame_ok env config data sample_rate :
  color_accepted env config ->
  sample_rate <> 0 -> (0 < len data)%nat ->
  exists lo hi color,
    np_min data = Some lo /\ np_max data = Some hi /\
    plot_frame env config data sample_rate
    = Ok (mkPlot
            (linspace 0%Q (Q_of_nat (len data) / inject_Z sample_rate)%Q
                      (len data))
            data color
            (0%Q, (Q_of_nat (len data) / inject_Z sample_rate)%Q)
            ((lo * (11 # 10))%Q, (hi * (11 # 10))%Q)).
Proof.
  intros (color & Hcolor & Hrange) Hsr Hlen. unfold plot_frame, np_min, np_max.
  rewrite Hcolor, Hrange.
  destruct (sample_rate =? 0) eqn:E; [apply Z.eqb_eq in E; lia|].
  assert (Hv : length (values data) = len data).
  { destruct data; simpl; rewrite ?length_map; reflexivity. }
  destruct (values data) as [|v vs]; [simpl in Hv; lia|].
  eexists _, _, _. split; [reflexivity|]. split; reflexivity.
Qed.

Lemma plot_frame_inv env config data sample_rate p :
  plot_frame env config data sample_rate = Ok p ->
  sample_rate <> 0 /\
  plot_data p = data /\
  plot_time p
  = linspace 0%Q (Q_of_nat (len data) / inject_Z sample_rate)%Q (len data) /\
  plot_xlim p = (0%Q, (Q_of_nat (len data) / inject_Z sample_rate)%Q) /\
  exists lo hi,
    np_min data = Some lo /\ np_max data = Some hi /\
    plot_ylim p = ((lo * (11 # 10))%Q, (hi * (11 # 10))%Q).
Proof.
  unfold plot_frame. destruct (sample_rate =? 0) eqn:E; [discriminate|].
  apply Z.eqb_neq in E.
  destruct (hex_to_rgba env (wave_color config)) as [color|]; [|discriminate].
  destruct (rgba_in_range color); [|discriminate].
  destruct (np_min data) as [lo|]; [|discriminate].
  destruct (np_max data) as [hi|]; [|discriminate].
  intros [= <-]. simpl. repeat split; try assumption.
  exists lo, hi. repeat split.
Qed.

(** For a chunk whose samples all equal [c], the two limits handed to
    [set_ylim] coincide. *)
Lemma constant_chunk_limits env config data sample_rate (c : Q) (n : nat) p :
  plot_frame env config data sample_rate = Ok p ->
  values data = replicate (S n) c ->
  plot_ylim p = ((c * (11 # 10))%Q, (c * (11 # 10))%Q).
Proof.
  intros Hp Hc.
  destruct (plot_frame_inv _ _ _ _ _ Hp)
    as (_ & _ & _ & _ & lo & hi & Hlo & Hhi & ->).
  unfold np_min in Hlo. unfold np_max in Hhi. rewrite Hc in Hlo, Hhi.
  simpl in Hlo, Hhi. rewrite fold_Qmin_replicate in Hlo.
  rewrite fold_Qmax_replicate in Hhi.
  injection Hlo as <-. injection Hhi as <-. reflexivity.
Qed.

(** C6 (amended).  The time axis of a rendered frame has [len(series)]
    points on an even grid of step [duration / (len(series) - 1)] starting
    at 0, all within the closed interval [[0, duration]] where
    [duration = len(series) / sample_rate]; with two or more samples the
    last point is [duration] itself. *)
Theorem time_axis_closed_interval env config data sample_rate p :
  0 < sample_rate -> plot_frame env config data sample_rate = Ok p ->
  let n := len data in
  let duration := (Q_of_nat n / inject_Z sample_rate)%Q in
  length (plot_time p) = n /\
  (forall i t, plot_time p !! i = Some t ->
     (t == Q_of_nat i * (duration / Q_of_nat (n - 1)))%Q /\
     (0 <= t)%Q /\ (t <= duration)%Q) /\
  ((2 <= n)%nat -> last (plot_time p) = Some duration).
Proof.
  intros Hsr Hp n duration.
  destruct (plot_frame_inv _ _ _ _ _ Hp) as (_ & _ & Ht & _).
  fold n in Ht. fold duration in Ht. rewrite Ht.
  assert (Hd : (0 <= duration)%Q).
  { unfold duration. apply Qle_shift_div_l.
    - unfold Qlt. simpl. lia.
    - rewrite Qmult_0_l. apply Q_of_nat_nonneg. }
  split; [apply length_linspace|]. split; [|apply linspace_last].
  intros i t Hit. apply linspace_lookup in Hit as [Hi Heq].
  assert (Heq' : (t == Q_of_nat i * (duration / Q_of_nat (n - 1)))%Q).
  { rewrite Heq. unfold Qdiv. ring. }
  split; [exact Heq'|].
  destruct (decide (n = 1)%nat) as [Hn1|Hn1].
  - assert (i = 0)%nat as -> by lia.
    assert (t == 0)%Q as -> by (rewrite Heq'; unfold Q_of_nat; simpl; ring).
    split; [apply Qle_refl|exact Hd].
  - assert (Hpos : (0 < Q_of_nat (n - 1))%Q) by (apply Q_of_nat_pos; lia).
    assert (Hstep : (0 <= duration / Q_of_nat (n - 1))%Q).
    { apply Qle_shift_div_l; [exact Hpos|]. rewrite Qmult_0_l. exact Hd. }
    rewrite Heq'. split.
    + apply Qmult_le_0_compat; [apply Q_of_nat_nonneg|exact Hstep].
    + apply Qle_trans
        with (Q_of_nat (n - 1) * (duration / Q_of_nat (n - 1)))%Q.
      * apply Qmult_le_compat_r; [apply Q_of_nat_le; lia|exact Hstep].
      * apply Qle_lteq. right. field.
        intros H0. rewrite H0 in Hpos. exact (Qlt_irrefl _ Hpos).
Qed.

(** C6, counterexample.  Three samples at 44100 Hz: a point of the time
    axis is not strictly below [3 / 44100]. *)
Lemma time_axis_reaches_duration :
  exists p t,
    plot_frame example_env DEFAULT_CONFIG (silent_chunk 3) 44100 = Ok p /\
    In t (plot_time p) /\
    ~ (t < Q_of_nat (len (silent_chunk 3)) / inject_Z 44100)%Q.
Proof.
  eexists. exists (Q_of_nat 3 / inject_Z 44100)%Q.
  split; [reflexivity|]. split.
  - simpl. right. right. left. reflexivity.
  - apply Qlt_irrefl.
Qed.
End PlotFacts.

(** ** Frame names *)

Module PathsFacts.
Import Paths.

Lemma ends_with_refl s : ends_with s s = true.
Proof.
  destruct s; cbn [ends_with]; rewrite String.eqb_refl; reflexivity.
Qed.

Lemma ends_with_app s p t : ends_with s t = true -> ends_with s (p +:+ t) = true.
Proof.
  intros Ht. induction p as [|c p IH]; [exact Ht|].
  change (String c p +:+ t) with (String c (p +:+ t)).
  cbn [ends_with]. rewrite IH. apply orb_true_r.
Qed.

Lemma glob_png_frame_name i : glob_png (frame_name i) = true.
Proof.
  unfold glob_png, frame_name. do 2 apply ends_with_app. apply ends_with_refl.
Qed.

Lemma length_append s t :
  String.length (s +:+ t) = (String.length s + String.length t)%nat.
Proof. induction s as [|c s IH]; simpl; [|rewrite IH]; reflexivity. Qed.

Lemma append_inj_l t s1 s2 : s1 +:+ t = s2 +:+ t -> s1 = s2.
Proof.
  revert s2. induction s1 as [|c s1 IH]; intros [|c2 s2] H.
  - reflexivity.
  - apply (f_equal String.length) in H. rewrite !length_append in H.
    simpl in H. lia.
  - apply (f_equal String.length) in H. rewrite !length_append in H.
    simpl in H. lia.
  - change (String c (s1 +:+ t) = String c2 (s2 +:+ t)) in H.
    injection H as -> H. f_equal. apply IH. exact H.
Qed.

Lemma pretty_N_char_nonzero x :
  (0 < x < 10)%N -> pretty_N_char x <> "0"%char.
Proof.
  intros Hx.
  assert (x = 1 \/ x = 2 \/ x = 3 \/ x = 4 \/ x = 5 \/ x = 6
          \/ x = 7 \/ x = 8 \/ x = 9)%N as H by lia.
  repeat (destruct H as [-> | H]; [discriminate|]). subst. discriminate.
Qed.

(** A positive number is printed without a leading zero. *)
Lemma pretty_N_go_leading x : forall s,
  (0 < x)%N ->
  exists c s', pretty_N_go x s = String c s' /\ c <> "0"%char.
Proof.
  induction (N.lt_wf_0 x) as [x _ IH]. intros s Hx.
  rewrite pretty_N_go_step by exact Hx.
  destruct (decide (x `div` 10 = 0)%N) as [Hq|Hq].
  - rewrite Hq, pretty_N_go_0. eexists _, _. split; [reflexivity|].
    apply pretty_N_char_nonzero.
    assert (x < 10)%N by (apply N.div_small_iff in Hq; [exact Hq|lia]).
    rewrite N.mod_small by assumption. lia.
  - apply IH; [apply N.div_lt; lia | apply N.neq_0_lt_0; exact Hq].
Qed.

Lemma pretty_nat_positive n :
  (0 < n)%nat ->
  exists c s', pretty n = String c s' /\ c <> "0"%char.
Proof.
  intros Hn. unfold pretty, pretty_nat, pretty, pretty_N.
  destruct (decide (N.of_nat n = 0%N)); [lia|].
  apply pretty_N_go_leading. lia.
Qed.

Lemma zeros_append_inj a : forall b p q,
  no_leading_zero p -> no_leading_zero q ->
  zeros a +:+ p = zeros b +:+ q -> p = q.
Proof.
  induction a as [|a IH]; intros [|b] p q Hp Hq H.
  - exact H.
  - change (p = String "0" (zeros b +:+ q)) in H.
    subst p. simpl in Hp. congruence.
  - change (String "0" (zeros a +:+ p) = q) in H.
    subst q. simpl in Hq. congruence.
  - change (String "0" (zeros a +:+ p) = String "0" (zeros b +:+ q)) in H.
    injection H as H. eapply IH; eassumption.
Qed.

(** The digits of a formatted index: a run of zeros, then the number
    without leading zeros (nothing at all for zero). *)
Lemma format_05d_shape n :
  exists a body,
    format_05d n = zeros a +:+ body /\ no_leading_zero body /\
    body = (if decide (n = 0)%nat then EmptyString else pretty n).
Proof.
  destruct (decide (n = 0)%nat) as [->|Hn].
  - exists 5%nat, EmptyString. repeat split.
  - destruct (pretty_nat_positive n ltac:(lia)) as (c & s' & Hs & Hc).
    exists (5 - String.length (pretty n))%nat, (pretty n).
    split; [reflexivity|]. split; [|reflexivity]. rewrite Hs. exact Hc.
Qed.

Lemma format_05d_inj i j : format_05d i = format_05d j -> i = j.
Proof.
  intros H.
  destruct (format_05d_shape i) as (a & p & Hi & Hp & Hpi).
  destruct (format_05d_shape j) as (b & q & Hj & Hq & Hqj).
  rewrite Hi, Hj in H. apply zeros_append_inj in H; [|assumption..].
  rewrite Hpi, Hqj in H. clear - H.
  destruct (decide (i = 0)%nat) as [->|Hi0], (decide (j = 0)%nat) as [->|Hj0].
  - reflexivity.
  - destruct (pretty_nat_positive j ltac:(lia)) as (c & s' & Hs & _).
    congruence.
  - destruct (pretty_nat_positive i ltac:(lia)) as (c & s' & Hs & _).
    congruence.
  - apply (inj pretty). exact H.
Qed.

Lemma frame_name_inj i j : frame_name i = frame_name j -> i = j.
Proof.
  unfold frame_name. intros H. apply String.app_inj in H.
  apply append_inj_l in H. apply format_05d_inj. exact H.
Qed.

Lemma expand_pattern_frame i :
  expand_pattern "frame_%05d.png" i = Some (frame_name i).
Proof. reflexivity. Qed.

Lemma pretty_N_go_length k : forall x s,
  (x < 10 ^ N.of_nat k)%N ->
  (String.length (pretty_N_go x s) <= String.length s + k)%nat.
Proof.
  induction k as [|k IH]; intros x s Hx.
  - assert (x = 0%N) as -> by (simpl in Hx; lia).
    rewrite pretty_N_go_0. lia.
  - destruct (decide (x = 0)%N) as [->|Hx0].
    + rewrite pretty_N_go_0. lia.
    + rewrite pretty_N_go_step by lia.
      etransitivity; [apply IH|simpl; lia].
      apply N.Div0.div_lt_upper_bound.
      rewrite Nat2N.inj_succ, N.pow_succ_r' in Hx. exact Hx.
Qed.

(** Below 100000 the digit field is exactly five characters wide. *)
Lemma length_format_05d j :
  Z.of_nat j < 100000 -> String.length (zfill 5 (pretty j)) = 5%nat.
Proof.
  intros Hj. unfold zfill. rewrite length_append.
  assert (Hz : forall n, String.length (zeros n) = n)
    by (induction n as [|n IHn]; simpl; congruence).
  rewrite Hz.
  assert (String.length (pretty j) <= 5)%nat; [|lia].
  unfold pretty, pretty_nat, pretty, pretty_N.
  destruct (decide (N.of_nat j = 0%N)); [simpl; lia|].
  apply (pretty_N_go_length 5 (N.of_nat j) EmptyString).
  change (10 ^ N.of_nat 5)%N with 100000%N. lia.
Qed.

End PathsFacts.

(** ** The monad *)

#[local] Instance workspace_kept_refl landing :
  Reflexive (workspace_kept landing).
Proof. intros [| |d]; simpl; auto. Qed.

#[local] Instance workspace_kept_trans landing :
  Transitive (workspace_kept landing).
Proof.
  intros [| |x] [| |y] [| |z]; simpl; try tauto.
  intros Hxy Hyz name.
  destruct (Hxy name) as [H1 H2], (Hyz name) as [H3 H4].
  split; [auto|]. intros Hg Hl. rewrite H4, H2; auto.
Qed.

#[local] Instance any_workspace_refl : Reflexive any_workspace.
Proof. intros x. exact I. Qed.

#[local] Instance any_workspace_trans : Transitive any_workspace.
Proof. intros x y z _ _. exact I. Qed.

Section MonadFacts.
Variable P : event -> Prop.
Variable Q : exn -> Prop.
Variable R : node -> node -> Prop.
Context `{!Reflexive R, !Transitive R}.

Lemma sound_ret {A} (a : A) : sound P Q R (ret a).
Proof.
  intros s. split; [exists []; rewrite app_nil_r; auto|].
  split; [reflexivity|exact I].
Qed.

Lemma sound_raise {A} e : Q e -> sound P Q R (@raise A e).
Proof.
  intros He s. split; [exists []; rewrite app_nil_r; auto|].
  split; [reflexivity|exact He].
Qed.

Lemma sound_lift {A} (r : result A) :
  match r with Ok _ => True | Raise e => Q e | OutOfFuel => False end ->
  sound P Q R (lift r).
Proof.
  intros Hr s. split; [exists []; rewrite app_nil_r; auto|].
  split; [reflexivity|exact Hr].
Qed.

Lemma sound_emit e : P e -> sound P Q R (emit e).
Proof.
  intros He s. split; [exists [e]; simpl; auto|].
  split; [reflexivity|exact I].
Qed.

Lemma sound_get_temp : sound P Q R get_temp.
Proof.
  intros s. split; [exists []; rewrite app_nil_r; auto|].
  split; [reflexivity|exact I].
Qed.

Lemma sound_bind {A B} (m : M A) (f : A -> M B) :
  sound P Q R m -> (forall a, sound P Q R (f a)) -> sound P Q R (bind m f).
Proof.
  intros Hm Hf s. unfold bind. specialize (Hm s).
  destruct (m s) as [[a|e|] s1]; simpl in Hm; try exact Hm.
  destruct Hm as [(tr1 & Htr1 & HP1) [HR1 _]]. specialize (Hf a s1).
  destruct (f a s1) as [r s2]; simpl in *.
  destruct Hf as [(tr2 & Htr2 & HP2) [HR2 Hr]].
  split; [|split; [etransitivity; eassumption|exact Hr]].
  exists (tr1 ++ tr2). rewrite Htr2, Htr1, app_assoc. split; [reflexivity|].
  apply Forall_app; auto.
Qed.

Lemma sound_try_finally {A} (body : M A) (fin : M unit) :
  sound P Q R body -> sound P Q R fin -> sound P Q R (try_finally body fin).
Proof.
  intros Hb Hf s. unfold try_finally. specialize (Hb s).
  destruct (body s) as [r s1]; simpl in Hb.
  destruct Hb as [(tr1 & Htr1 & HP1) [HR1 Hr]]. specialize (Hf s1).
  destruct r as [a|e|]; [| |contradiction];
    destruct (fin s1) as [[[]|e2|] s2]; simpl in *;
    destruct Hf as [(tr2 & Htr2 & HP2) [HR2 Hr2]]; try contradiction;
    (split; [exists (tr1 ++ tr2); rewrite Htr2, Htr1, app_assoc;
             split; [reflexivity|apply Forall_app; auto]
            |split; [etransitivity; eassumption|assumption]]).
Qed.

Lemma sound_try_except {A} (body : M A) handled handler Q' :
  sound P Q' R body ->
  (forall e, Q' e -> handled e = false -> Q e) ->
  (forall e, sound P Q R (handler e)) ->
  sound P Q R (try_except body handled handler).
Proof.
  intros Hb HQ Hh s. unfold try_except. specialize (Hb s).
  destruct (body s) as [[a|e|] s1]; simpl in Hb; try exact Hb.
  destruct Hb as [(tr1 & Htr1 & HP1) [HR1 Hr]].
  destruct (handled e) eqn:He.
  - specialize (Hh e s1). destruct (handler e s1) as [r s2]; simpl in *.
    destruct Hh as [(tr2 & Htr2 & HP2) [HR2 Hr2]].
    split; [|split; [etransitivity; eassumption|exact Hr2]].
    exists (tr1 ++ tr2). rewrite Htr2, Htr1, app_assoc.
    split; [reflexivity|apply Forall_app; auto].
  - simpl. split; [exists tr1; auto|]. split; [exact HR1|].
    apply HQ; assumption.
Qed.

Lemma sound_subprocess_run b :
  (forall rc, Q (CalledProcessError rc)) -> Q FileNotFoundError ->
  Q PermissionError -> sound P Q R (subprocess_run b).
Proof.
  intros H1 H2 H3. destruct b; simpl;
    [apply sound_ret|apply sound_raise..]; auto.
Qed.

End MonadFacts.

Lemma sound_set_temp P Q (R : node -> node -> Prop) n :
  (forall t, R t n) -> sound P Q R (set_temp n).
Proof.
  intros HR s. split; [exists []; simpl; rewrite app_nil_r; auto|].
  split; [apply HR|exact I].
Qed.

Lemma sound_weaken (P P' : event -> Prop) (Q Q' : exn -> Prop)
      (R R' : node -> node -> Prop) {A} (m : M A) :
  (forall e, P e -> P' e) -> (forall e, Q e -> Q' e) ->
  (forall t t', R t t' -> R' t t') ->
  sound P Q R m -> sound P' Q' R' m.
Proof.
  intros HP HQ HR Hm s. destruct (Hm s) as [(tr & Htr & Hall) [Hw Hr]].
  split; [|split].
  - exists tr. split; [exact Htr|]. eapply Forall_impl; eauto.
  - apply HR. exact Hw.
  - destruct (m s).1; auto.
Qed.

(** ** The reader *)

Module WaveFacts.
Import Wave.

(** Reading splits what is left; the header is untouched. *)
Lemma readframes_split w n :
  (readframes w n).1 ++ rest (readframes w n).2 = rest w /\
  framerate (readframes w n).2 = framerate w /\
  nchannels (readframes w n).2 = nchannels w /\
  sampwidth (readframes w n).2 = sampwidth w /\
  nframes (readframes w n).2 = nframes w.
Proof.
  unfold readframes. destruct (n =? 0); simpl; [tauto|].
  rewrite take_drop. tauto.
Qed.

Lemma readframes_rest_length w n :
  (length (readframes w n).1 + length (rest (readframes w n).2))%nat
  = length (rest w).
Proof.
  destruct (readframes_split w n) as [H _].
  apply (f_equal length) in H. rewrite length_app in H. exact H.
Qed.

(** A positive request against [r] whole frames returns [min n r] of
    them. *)
Lemma readframes_chunk w n r :
  0 < n -> 0 <= r -> 0 < framesize w ->
  Z.of_nat (length (rest w)) = r * framesize w ->
  Z.of_nat (length (readframes w n).1) = Z.min n r * framesize w /\
  Z.of_nat (length (rest (readframes w n).2))
  = (r - Z.min n r) * framesize w /\
  soundpos (readframes w n).2 = soundpos w + Z.min n r.
Proof.
  intros Hn Hr Hfs Hlen. unfold readframes.
  destruct (n =? 0) eqn:E; [apply Z.eqb_eq in E; lia|]. simpl.
  destruct (n * framesize w <? 0) eqn:E1; [apply Z.ltb_lt in E1; nia|].
  set (size := if Z.of_nat (length (rest w)) <? n * framesize w
               then Z.of_nat (length (rest w)) else n * framesize w).
  assert (Hsize : size = Z.min n r * framesize w).
  { unfold size. rewrite Hlen.
    destruct (r * framesize w <? n * framesize w) eqn:E2.
    - apply Z.ltb_lt in E2. rewrite Z.min_r by nia. reflexivity.
    - apply Z.ltb_ge in E2. rewrite Z.min_l by nia. reflexivity. }
  assert (Hle : (Z.to_nat size <= length (rest w))%nat).
  { rewrite Hsize. apply Nat2Z.inj_le. rewrite Z2Nat.id by nia.
    rewrite Hlen. apply Z.mul_le_mono_nonneg_r; lia. }
  rewrite length_take_le by exact Hle. rewrite length_drop.
  rewrite Nat2Z.inj_sub by exact Hle. rewrite Z2Nat.id by nia.
  rewrite Hsize, Hlen. split; [reflexivity|]. split; [ring|].
  rewrite Z.div_mul by lia. reflexivity.
Qed.
End WaveFacts.

(** ** The converter *)

Lemma rendered_app tr1 tr2 : rendered (tr1 ++ tr2) = rendered tr1 ++ rendered tr2.
Proof.
  induction tr1 as [|e tr1 IH]; [reflexivity|].
  destruct e; simpl; rewrite IH; reflexivity.
Qed.

Lemma frames_from_cons config k p plots :
  frames_from config k (p :: plots)
  = (k, Paths.join (temp_dir config) (Paths.frame_name k), p)
      :: frames_from config (S k) plots.
Proof.
  unfold frames_from. simpl. rewrite Nat.add_0_r. f_equal.
  apply imap_ext. intros j x _. simpl.
  replace (k + S j)%nat with (S (k + j)) by lia. reflexivity.
Qed.

Lemma length_frames_from config k plots :
  length (frames_from config k plots) = length plots.
Proof. apply length_imap. Qed.

Ltac sound_side := try (exact _); try (exact I); try reflexivity.

Ltac sound_node :=
  match goal with
  | |- sound _ _ _ (match ?t with Absent => _ | RegularFile => _ | Dir _ => _ end) =>
      destruct t
  end.

Ltac sound_step :=
  first
    [ apply sound_bind; [..|intros ?]
    | apply sound_ret
    | apply sound_emit
    | apply sound_get_temp
    | apply sound_set_temp; intros ?
    | apply sound_raise ];
  sound_side.

Section ConverterFacts.
Variable env : Env.
Variable config : Config.

Lemma decode_no_exit raw nc :
  match decode raw nc with
  | OutOfFuel => False | Raise (SystemExit _) => False | _ => True
  end.
Proof.
  unfold decode, downmix. destruct (Numpy.frombuffer_int16 raw); [|exact I].
  destruct (1 <? nc); [|exact I].
  destruct (Numpy.reshape_rows _ _); exact I.
Qed.

Lemma plot_frame_no_exit data sr :
  match plot_frame env config data sr with
  | OutOfFuel => False | Raise (SystemExit _) => False | _ => True
  end.
Proof.
  unfold plot_frame. destruct (sr =? 0); [exact I|].
  destruct (hex_to_rgba env (wave_color config)) as [color|]; [|exact I].
  destruct (rgba_in_range color); [|exact I].
  destruct (Numpy.np_min data), (Numpy.np_max data); exact I.
Qed.

Lemma floordiv_no_exit a b :
  match floordiv a b with
  | OutOfFuel => False | Raise (SystemExit _) => False | _ => True
  end.
Proof. unfold floordiv. destruct (b =? 0); exact I. Qed.

Lemma sound_lift_exits R `{!Reflexive R} {A} (r : result A) :
  match r with
  | OutOfFuel => False | Raise (SystemExit _) => False | _ => True
  end ->
  sound not_probe exits_with_1 R (lift r).
Proof.
  intros Hr. apply sound_lift; [exact _|].
  destruct r as [a|[]|]; simpl in *; auto; contradiction.
Qed.

(** Writing a frame leaves every entry that is not a [*.png] alone and
    makes no sub-directory. *)
Lemma workspace_kept_insert_frame landing d k p :
  workspace_kept landing (Dir d)
                 (Dir (<[Paths.frame_name k := PngFrame p]> d)).
Proof.
  intros name. destruct (decide (Paths.frame_name k = name)) as [<-|Hne].
  - rewrite lookup_insert_eq. split; [discriminate|].
    rewrite PathsFacts.glob_png_frame_name. discriminate.
  - rewrite lookup_insert_ne by exact Hne. auto.
Qed.

(** So does the encoder's output. *)
Lemma workspace_kept_with_output o t :
  workspace_kept (workspace_entry env o) t (with_output env o t).
Proof.
  unfold with_output. destruct t as [| |d]; try exact I.
  destruct (workspace_entry env o) as [landing|]; [|reflexivity].
  destruct (d !! landing) as [[]|] eqn:Ed; try reflexivity;
    (intros name; destruct (decide (landing = name)) as [<-|Hne];
     [rewrite lookup_insert_eq; split; [discriminate|congruence]
     |rewrite lookup_insert_ne by exact Hne; auto]).
Qed.

(** One call of the renderer, case by case. *)
Lemma render_frame_run data k sr s :
  render_frame env config data k sr s
  = match plot_frame env config data sr with
    | Ok p =>
        let tr :=
          trace s ++
          [EvSavefig k (Paths.join (temp_dir config) (Paths.frame_name k)) p]
        in
        if savefig_ok env k then
          match temp s with
          | Dir d =>
              (Ok tt,
               mkWorld (Dir (<[Paths.frame_name k := PngFrame p]> d)) tr)
          | t => (Raise FileNotFoundError, mkWorld t tr)
          end
        else (Raise SavefigError, mkWorld (temp s) tr)
    | Raise e => (Raise e, s)
    | OutOfFuel => (OutOfFuel, s)
    end.
Proof.
  unfold render_frame, savefig, bind, lift, emit, get_temp, set_temp, raise.
  destruct (plot_frame env config data sr) as [p|e|]; try reflexivity. simpl.
  destruct (savefig_ok env k); [|reflexivity].
  destruct (temp s); reflexivity.
Qed.

Lemma sound_render_frame landing data k sr :
  sound not_probe exits_with_1 (workspace_kept landing)
        (render_frame env config data k sr).
Proof.
  intros s. rewrite render_frame_run.
  pose proof (plot_frame_no_exit data sr) as Hp.
  destruct (plot_frame env config data sr) as [p|e|]; [| |contradiction].
  - cbv zeta. destruct (savefig_ok env k); [destruct (temp s) eqn:Et|]; simpl.
    + split; [eexists; split; [reflexivity|repeat constructor]|].
      split; [exact I|exact I].
    + split; [eexists; split; [reflexivity|repeat constructor]|].
      split; [exact I|exact I].
    + split; [eexists; split; [reflexivity|repeat constructor]|].
      split; [|exact I]. apply workspace_kept_insert_frame.
    + split; [eexists; split; [reflexivity|repeat constructor]|].
      split; [reflexivity|exact I].
  - simpl. split; [exists []; rewrite app_nil_r; auto|].
    split; [reflexivity|]. destruct e; simpl; auto; contradiction.
Qed.

Lemma sound_progress landing pos total :
  sound not_probe exits_with_1 (workspace_kept landing) (progress pos total).
Proof. unfold progress. destruct (total =? 0); sound_step. Qed.

Lemma sound_frame_loop landing fuel : forall wav cs nc sr tf k,
  (length (Wave.rest wav) < fuel)%nat ->
  sound not_probe exits_with_1 (workspace_kept landing)
        (frame_loop env config fuel wav cs nc sr tf k).
Proof.
  induction fuel as [|fuel IH]; intros wav cs nc sr tf k Hfuel; [lia|].
  cbn [frame_loop].
  pose proof (WaveFacts.readframes_rest_length wav cs) as Hlen.
  destruct (Wave.readframes wav cs) as [raw wav']. simpl in Hlen.
  destruct raw as [|b raw]; [sound_step|].
  sound_step; [apply sound_lift_exits; [exact _|apply decode_no_exit]|].
  sound_step; [apply sound_render_frame|].
  sound_step; [apply sound_progress|].
  apply IH. simpl in Hlen. lia.
Qed.

Lemma sound_write_output P Q o :
  sound P Q (workspace_kept (workspace_entry env o)) (write_output env o).
Proof.
  intros s. unfold write_output, bind, get_temp, set_temp. simpl.
  split; [exists []; rewrite app_nil_r; auto|].
  split; [apply workspace_kept_with_output|exact I].
Qed.

Lemma sound_run_encoder o :
  sound not_probe (fun e => forall c, e <> SystemExit c)
        (workspace_kept (workspace_entry env o)) (run_encoder env o).
Proof.
  unfold run_encoder. sound_step.
  - destruct (encode env); [apply sound_write_output| |sound_step..].
    destruct (partial_output env); [apply sound_write_output|sound_step].
  - apply sound_subprocess_run; [exact _|congruence..].
Qed.

Lemma sound_encode_video i o n :
  sound not_probe exits_with_1 (workspace_kept (workspace_entry env o))
        (encode_video env config i o n).
Proof.
  unfold encode_video.
  apply sound_try_except with (Q' := fun e => forall c, e <> SystemExit c);
    try exact _.
  - sound_step; [sound_step|]. sound_step; [|sound_step].
    apply sound_run_encoder.
  - intros e He _. destruct e; simpl; auto. exfalso. eapply He. reflexivity.
  - intros e. sound_step; sound_step.
Qed.

Lemma sound_convert_body i o :
  sound not_probe exits_with_1 (workspace_kept (workspace_entry env o))
        (convert_body env config i o).
Proof.
  unfold convert_body. sound_step; [sound_step|].
  sound_step; [destruct (open_wav env); sound_step|].
  sound_step; [apply sound_lift_exits; [exact _|apply floordiv_no_exit]|].
  sound_step; [apply sound_frame_loop; lia|].
  apply sound_encode_video.
Qed.

Lemma sound_mkdir_exist_ok :
  sound not_probe exits_with_1 any_workspace (mkdir_exist_ok config).
Proof.
  unfold mkdir_exist_ok. sound_step; [sound_step|].
  sound_step; [sound_step|]. sound_node; sound_step.
Qed.

Lemma sound_unlink name :
  sound not_probe exits_with_1 any_workspace (unlink name).
Proof.
  unfold unlink. sound_step; [sound_step|]. sound_node; try sound_step.
  destruct (_ !! name) as [[]|]; sound_step.
Qed.

Lemma sound_unlink_each n : forall pending,
  sound not_probe exits_with_1 any_workspace (unlink_each env n pending).
Proof.
  induction n as [|n IH]; intros pending; cbn [unlink_each]; [sound_step|].
  destruct (pending !! _); [|sound_step].
  sound_step; [apply sound_unlink|apply IH].
Qed.

Lemma sound_rmdir : sound not_probe exits_with_1 any_workspace rmdir.
Proof.
  unfold rmdir. sound_step; [sound_step|].
  sound_node; try sound_step. destruct (decide _); sound_step.
Qed.

Lemma sound_cleanup :
  sound not_probe exits_with_1 any_workspace (cleanup env config).
Proof.
  unfold cleanup. sound_step; [sound_step|]. sound_step; [sound_step|].
  sound_step; [sound_node; try sound_step; apply sound_unlink_each|].
  sound_step; [sound_step|]. apply sound_rmdir.
Qed.

Lemma sound_convert i o :
  sound not_probe exits_with_1 any_workspace (convert env config i o).
Proof.
  unfold convert. sound_step; [apply sound_mkdir_exist_ok|].
  apply sound_try_finally; try exact _; [|apply sound_cleanup].
  eapply sound_weaken; [| | |apply sound_convert_body]; auto.
  intros; exact I.
Qed.

End ConverterFacts.

(** ** The loop *)

Section LoopFacts.
Variable env : Env.
Variable config : Config.

Lemma progress_run pos total s :
  progress pos total s
  = if total =? 0 then (Raise ZeroDivisionError, s)
    else (Ok tt, mkWorld (temp s) (trace s ++ [EvProgress pos total])).
Proof. unfold progress. destruct (total =? 0); reflexivity. Qed.

(** What one call of the renderer adds to the list of frames. *)
Lemma render_frame_frames data k sr s :
  exists plots,
    rendered (trace (render_frame env config data k sr s).2)
    = rendered (trace s) ++ frames_from config k plots /\
    (length plots <= 1)%nat /\
    ((render_frame env config data k sr s).1 = Ok tt -> length plots = 1%nat).
Proof.
  rewrite render_frame_run.
  destruct (plot_frame env config data sr) as [p|e|].
  - exists [p]. cbv zeta.
    destruct (savefig_ok env k); [destruct (temp s)|]; cbn [snd fst trace];
      rewrite rendered_app, frames_from_cons; auto.
  - exists []. simpl. rewrite app_nil_r. repeat split; [lia|discriminate].
  - exists []. simpl. rewrite app_nil_r. repeat split; [lia|discriminate].
Qed.

(** One turn of the loop, written out. *)
Lemma frame_loop_unfold fuel wav cs nc sr tf k s :
  frame_loop env config (S fuel) wav cs nc sr tf k s
  = match (Wave.readframes wav cs).1 with
    | [] => (Ok k, s)
    | raw =>
        match decode raw nc with
        | Ok data =>
            match render_frame env config data k sr s with
            | (Ok _, s1) =>
                match progress (Wave.soundpos (Wave.readframes wav cs).2)
                               tf s1 with
                | (Ok _, s2) =>
                    frame_loop env config fuel (Wave.readframes wav cs).2
                               cs nc sr tf (S k) s2
                | (Raise e, s2) => (Raise e, s2)
                | (OutOfFuel, s2) => (OutOfFuel, s2)
                end
            | (Raise e, s1) => (Raise e, s1)
            | (OutOfFuel, s1) => (OutOfFuel, s1)
            end
        | Raise e => (Raise e, s)
        | OutOfFuel => (OutOfFuel, s)
        end
    end.
Proof.
  cbn [frame_loop]. destruct (Wave.readframes wav cs) as [raw wav'].
  cbn [fst snd]. destruct raw as [|b raw]; [reflexivity|].
  unfold bind, lift. destruct (decode (b :: raw) nc); reflexivity.
Qed.

(** Whatever the loop meets and however far it gets, the frames it has
    handed to [savefig] are numbered from the starting count upwards
    without a gap, and a count it returns is the number reached. *)
Lemma frame_loop_frames fuel : forall wav cs nc sr tf k s,
  exists plots,
    rendered (trace (frame_loop env config fuel wav cs nc sr tf k s).2)
    = rendered (trace s) ++ frames_from config k plots /\
    (forall n, (frame_loop env config fuel wav cs nc sr tf k s).1 = Ok n ->
               n = (k + length plots)%nat).
Proof.
  induction fuel as [|fuel IH]; intros wav cs nc sr tf k s.
  { exists []. simpl. rewrite app_nil_r. split; [reflexivity|discriminate]. }
  rewrite frame_loop_unfold.
  destruct (Wave.readframes wav cs).1 as [|b raw].
  { exists []. simpl. rewrite app_nil_r. split; [reflexivity|].
    intros n [= <-]. lia. }
  destruct (decode (b :: raw) nc) as [data|e|];
    try (exists []; simpl; rewrite app_nil_r; split;
         [reflexivity|discriminate]).
  destruct (render_frame_frames data k sr s) as (ps & Hps & Hle & Hok).
  destruct (render_frame env config data k sr s) as [[[]|e|] s1];
    simpl in Hps, Hok;
    try (exists ps; split; [exact Hps|discriminate]).
  specialize (Hok eq_refl). destruct ps as [|p [|? ?]]; try discriminate.
  rewrite progress_run. destruct (tf =? 0).
  { exists [p]. split; [exact Hps|discriminate]. }
  set (s2 := mkWorld (temp s1) _).
  destruct (IH (Wave.readframes wav cs).2 cs nc sr tf (S k) s2)
    as (plots & Hplots & Hn).
  exists (p :: plots). split.
  - rewrite Hplots. unfold s2. cbn [trace]. rewrite rendered_app, Hps.
    rewrite (frames_from_cons config k p plots).
    rewrite (frames_from_cons config k p []).
    cbn [rendered frames_from imap]. rewrite app_nil_r, <- app_assoc.
    reflexivity.
  - intros n Hr. rewrite (Hn n Hr). simpl. lia.
Qed.

(** A request of zero frames ends the loop at once. *)
Lemma frame_loop_zero_chunk fuel wav nc sr tf k s :
  frame_loop env config (S fuel) wav 0 nc sr tf k s = (Ok k, s).
Proof. reflexivity. Qed.

End LoopFacts.

(** ** Counting frames *)

Lemma ceil_div_0 c : ceil_div 0 c = 0.
Proof. unfold ceil_div. simpl. reflexivity. Qed.

Lemma ceil_div_step r c :
  0 < c -> 0 < r -> ceil_div r c = 1 + ceil_div (r - Z.min c r) c.
Proof.
  intros Hc Hr. unfold ceil_div.
  destruct (Z.min_spec c r) as [[Hlt ->]|[Hle ->]].
  - replace (- (r - c)) with (- r + 1 * c) by ring.
    rewrite Z.div_add by lia. ring.
  - replace (r - r) with 0 by ring. simpl.
    assert (- r / c = -1) as ->; [|reflexivity].
    symmetry. apply (Z.div_unique_pos (- r) c (-1) (c - r)); lia.
Qed.

(** [ceil_div] is the ceiling of the quotient. *)
Lemma ceil_div_spec a b :
  0 < b -> b * (ceil_div a b - 1) < a <= b * ceil_div a b.
Proof.
  intros Hb. unfold ceil_div.
  pose proof (Z.mul_div_le (- a) b Hb).
  pose proof (Z.mul_succ_div_gt (- a) b Hb). lia.
Qed.

Lemma ceil_div_exact a b :
  0 < b -> 0 <= a -> a mod b = 0 -> ceil_div a b = a / b.
Proof.
  intros Hb Ha Hm. unfold ceil_div.
  rewrite Z.div_opp_l_z by lia. ring.
Qed.

Lemma ceil_div_inexact a b :
  0 < b -> 0 <= a -> a mod b <> 0 -> ceil_div a b = a / b + 1.
Proof.
  intros Hb Ha Hm. unfold ceil_div.
  rewrite Z.div_opp_l_nz by lia. ring.
Qed.

Section CountFacts.
Variable env : Env.
Variable config : Config.
Hypothesis color_ok : color_accepted env config.
Hypothesis savefig_always : forall i, savefig_ok env i = true.

Lemma decode_chunk raw nc m :
  1 <= nc -> 0 <= m ->
  Z.of_nat (length raw) = m * (nc * 2) ->
  exists data,
    decode raw nc = Ok data /\ Z.of_nat (Numpy.len data) = m.
Proof.
  intros Hnc Hm Hlen. unfold decode.
  destruct (NumpyFacts.frombuffer_int16_even (Z.to_nat (m * nc)) raw)
    as (xs & -> & Hxs); [nia|].
  destruct (decide (1 < nc)) as [Hmulti|Hmono].
  - pose proof (downmix_multi xs (Z.to_nat nc) (Z.to_nat m)
                              ltac:(lia) ltac:(nia)) as Hmix.
    rewrite Z2Nat.id in Hmix by lia. rewrite Hmix.
    eexists. split; [reflexivity|]. simpl.
    rewrite length_map, length_seq. lia.
  - unfold downmix.
    destruct (1 <? nc) eqn:E; [apply Z.ltb_lt in E; lia|].
    eexists. split; [reflexivity|]. simpl. nia.
Qed.

Lemma frame_loop_complete cs nc sr tf fuel : forall wav r k s d,
  1 <= cs -> 0 <= r -> 1 <= nc -> sr <> 0 -> (0 < r -> tf <> 0) ->
  Wave.nchannels wav = nc -> Wave.sampwidth wav = 2 ->
  Z.of_nat (length (Wave.rest wav)) = r * Wave.framesize wav ->
  (length (Wave.rest wav) < fuel)%nat ->
  temp s = Dir d ->
  exists plots,
    (frame_loop env config fuel wav cs nc sr tf k s).1
    = Ok (k + length plots)%nat /\
    rendered (trace (frame_loop env config fuel wav cs nc sr tf k s).2)
    = rendered (trace s) ++ frames_from config k plots /\
    Z.of_nat (length plots) = ceil_div r cs /\
    (forall j p, plots !! j = Some p ->
       Z.of_nat (Numpy.len (plot_data p)) = Z.min cs (r - Z.of_nat j * cs)).
Proof.
  induction fuel as [|fuel IH];
    intros wav r k s d Hcs Hr Hnc Hsr Htf Hch Hsw Hlen Hfuel Hd; [lia|].
  assert (Hfs : Wave.framesize wav = nc * 2)
    by (unfold Wave.framesize; rewrite Hch, Hsw; reflexivity).
  destruct (WaveFacts.readframes_chunk wav cs r) as (Hraw & Hrest & _);
    [lia..|].
  destruct (WaveFacts.readframes_split wav cs) as (_ & _ & Hch' & Hsw' & _).
  pose proof (WaveFacts.readframes_rest_length wav cs) as Hsum.
  rewrite frame_loop_unfold.
  destruct (decide (r = 0)) as [->|Hr0].
  { rewrite Z.min_r in Hraw by lia.
    destruct (Wave.readframes wav cs).1 as [|b raw]; [|simpl in Hraw; lia].
    exists []. simpl. rewrite app_nil_r, Nat.add_0_r, ceil_div_0.
    repeat split. intros j p Hj. rewrite lookup_nil in Hj. discriminate. }
  set (m := Z.min cs r) in *. assert (Hm : 1 <= m) by (unfold m; lia).
  destruct (Wave.readframes wav cs).1 as [|b raw] eqn:Eraw;
    [simpl in Hraw; nia|].
  destruct (decode_chunk (b :: raw) nc m) as (data & -> & Hdata);
    [lia|lia|rewrite Hraw, Hfs; reflexivity|].
  rewrite render_frame_run.
  destruct (plot_frame_ok env config data sr color_ok Hsr ltac:(lia))
    as (lo & hi & color & _ & _ & ->).
  cbv zeta. rewrite savefig_always, Hd, progress_run.
  destruct (tf =? 0) eqn:Etf; [apply Z.eqb_eq in Etf; lia|].
  match goal with
  | |- context [frame_loop _ _ _ _ _ _ _ _ _ ?s2] => set (s' := s2)
  end.
  set (p := mkPlot _ _ _ _ _) in *.
  destruct (IH (Wave.readframes wav cs).2 (r - m) (S k) s'
               (<[Paths.frame_name k := PngFrame p]> d))
    as (plots & Hres & Htr & Hcount & Hlens);
    [lia|unfold m; lia|lia|exact Hsr|intros _; apply Htf; lia
    |congruence|congruence| |simpl in Hsum; lia|reflexivity|].
  { unfold Wave.framesize in *. rewrite Hch', Hsw'. exact Hrest. }
  exists (p :: plots). split; [|split; [|split]].
  - rewrite Hres. simpl. f_equal. lia.
  - rewrite Htr. unfold s'. cbn [trace]. rewrite !rendered_app.
    rewrite (frames_from_cons config k p plots).
    cbn [rendered]. rewrite app_nil_r, <- app_assoc. reflexivity.
  - cbn [length]. rewrite Nat2Z.inj_succ, Hcount.
    rewrite (ceil_div_step r cs) by lia. fold m. lia.
  - intros [|j] q Hq.
    + injection Hq as <-. simpl. rewrite Hdata. unfold m. f_equal. lia.
    + simpl in Hq. rewrite (Hlens j q Hq).
      destruct (Z.min_spec cs r) as [[Hlt Hmin]|[Hle Hmin]]; fold m in Hmin.
      * rewrite Hmin. f_equal. lia.
      * exfalso. rewrite Hmin in Hcount.
        replace (r - r) with 0 in Hcount by ring.
        rewrite ceil_div_0 in Hcount. destruct plots; [|simpl in Hcount; lia].
        rewrite lookup_nil in Hq. discriminate.
Qed.

End CountFacts.

(** ** Frame count, frame names and the empty request *)

(** C1.  For a well-formed stream and a frame rate between 1 and the sample
    rate, with a colour the renderer accepts and every frame written
    successfully, the loop of [convert]
    returns a frame count equal to the ceiling of
    [total_sample_frames / chunk_length], having rendered exactly that many
    frames; frame [j] holds [min chunk_length (total - j * chunk_length)]
    samples, so when the total is not a multiple of the chunk length the
    last frame holds the remainder, strictly fewer than [chunk_length]. *)
Theorem convert_loop_frame_count env config wav s d :
  Wave.well_formed wav ->
  0 < fps config <= Wave.framerate wav ->
  color_accepted env config ->
  (forall i, savefig_ok env i = true) ->
  temp s = Dir d ->
  let chunk_length := Wave.framerate wav / fps config in
  let total := Wave.nframes wav in
  let final :=
    frame_loop env config (S (length (Wave.rest wav))) wav chunk_length
               (Wave.nchannels wav) (Wave.framerate wav) total 0 s in
  1 <= chunk_length /\
  exists plots,
    final.1 = Ok (length plots) /\
    rendered (trace final.2) = rendered (trace s) ++ frames_from config 0 plots /\
    Z.of_nat (length plots) = ceil_div total chunk_length /\
    (forall j p, plots !! j = Some p ->
       Z.of_nat (Numpy.len (plot_data p))
       = Z.min chunk_length (total - Z.of_nat j * chunk_length)) /\
    (total mod chunk_length <> 0 ->
       exists p, last plots = Some p /\
         Z.of_nat (Numpy.len (plot_data p)) = total mod chunk_length /\
         total mod chunk_length < chunk_length).
Proof.
  intros (Hrate & Hch & Hsw & Htot & _ & Hlen) Hfps Hcolor Hsave Hd
         chunk_length total final.
  assert (Hchunk : 1 <= chunk_length).
  { unfold chunk_length. apply Z.div_le_lower_bound; lia. }
  split; [exact Hchunk|].
  destruct (frame_loop_complete env config Hcolor Hsave chunk_length
              (Wave.nchannels wav) (Wave.framerate wav) total
              (S (length (Wave.rest wav))) wav total 0%nat s d)
    as (plots & Hres & Htr & Hcount & Hlens);
    [lia..|reflexivity|exact Hsw|exact Hlen|lia|exact Hd|].
  fold final in Hres, Htr. exists plots.
  split; [exact Hres|]. split; [exact Htr|]. split; [exact Hcount|].
  split; [exact Hlens|]. intros Hrem.
  rewrite ceil_div_inexact in Hcount by (fold total; lia).
  pose proof (Z.div_pos total chunk_length Htot ltac:(lia)) as Hq.
  pose proof (Z.mod_pos_bound total chunk_length ltac:(lia)) as Hm.
  pose proof (Z.div_mod total chunk_length ltac:(lia)) as Hdm.
  destruct (plots !! Z.to_nat (total / chunk_length)) as [p|] eqn:Ep.
  - exists p. split; [|split; [|lia]].
    + rewrite last_lookup, <- Ep. f_equal. lia.
    + rewrite (Hlens _ _ Ep), Z2Nat.id by lia. lia.
  - apply lookup_ge_None in Ep. lia.
Qed.

(** C7.  However many turns the loop is run for ([fuel] bounds them) and
    whatever it meets, the frames handed to [savefig] so far carry the
    indices 0, 1, 2, ... in order without a gap, a returned frame count is
    their number, and frame [j] goes to [temp_dir/frame_{j:05d}.png].  That
    name is what the encoder's sequence pattern [frame_%05d.png] expands to
    for [j]; the digit field is five characters wide for indices below
    100000; and different indices have different names. *)
Theorem frame_indices_and_names env config fuel wav cs nc sr tf s inp out :
  let final := frame_loop env config fuel wav cs nc sr tf 0 s in
  (exists frames,
     rendered (trace final.2) = rendered (trace s) ++ frames /\
     (forall j i path p, frames !! j = Some (i, path, p) ->
        i = j /\
        path = Paths.join (temp_dir config)
                          ("frame_" +:+ Paths.zfill 5 (pretty j) +:+ ".png")) /\
     (forall n, final.1 = Ok n -> n = length frames)) /\
  nth 5 (ffmpeg_cmd config inp out) EmptyString
  = Paths.join (temp_dir config) "frame_%05d.png" /\
  (forall j, Paths.expand_pattern "frame_%05d.png" j
             = Some (Paths.frame_name j)) /\
  (forall j, Z.of_nat j < 100000 ->
             String.length (Paths.zfill 5 (pretty j)) = 5%nat) /\
  (forall i j, Paths.frame_name i = Paths.frame_name j -> i = j).
Proof.
  intros final. split; [|split; [reflexivity|split; [|split]]].
  - destruct (frame_loop_frames env config fuel wav cs nc sr tf 0%nat s)
      as (plots & Htr & Hn).
    fold final in Htr, Hn. exists (frames_from config 0 plots).
    split; [exact Htr|]. split.
    + intros j i path p Hj. unfold frames_from in Hj.
      rewrite list_lookup_imap in Hj.
      destruct (plots !! j); [|discriminate]. injection Hj as <- <- <-.
      split; reflexivity.
    + intros n Hr. rewrite length_frames_from. apply (Hn n Hr).
  - apply PathsFacts.expand_pattern_frame.
  - apply PathsFacts.length_format_05d.
  - apply PathsFacts.frame_name_inj.
Qed.

(** C10.  When the floor of [sample_rate / fps] is zero the division itself
    succeeds, and the loop, asked for blocks of zero frames, returns at its
    first read with a frame count of zero, raising nothing and leaving the
    world as it found it; [convert] then goes straight on to the encoder
    with no frame rendered. *)
Theorem zero_chunk_loop_ends env config wav s inp out :
  fps config <> 0 ->
  Wave.framerate wav / fps config = 0 ->
  floordiv (Wave.framerate wav) (fps config) = Ok 0 /\
  frame_loop env config (S (length (Wave.rest wav))) wav
             (Wave.framerate wav / fps config)
             (Wave.nchannels wav) (Wave.framerate wav) (Wave.nframes wav) 0 s
  = (Ok 0%nat, s) /\
  (open_wav env = Some wav ->
   convert_body env config inp out s
   = encode_video env config inp out 0
                  (mkWorld (temp s) (trace s ++ [EvOpen inp]))).
Proof.
  intros Hfps Hzero.
  assert (Hdiv : floordiv (Wave.framerate wav) (fps config) = Ok 0).
  { unfold floordiv. destruct (fps config =? 0) eqn:E;
      [apply Z.eqb_eq in E; contradiction|]. rewrite Hzero. reflexivity. }
  split; [exact Hdiv|]. split.
  - rewrite Hzero. apply frame_loop_zero_chunk.
  - intros Hopen. unfold convert_body, bind, emit, lift, ret.
    rewrite Hopen, Hdiv. reflexivity.
Qed.

(** ** The workspace *)

Section WorkspaceFacts.
Variable env : Env.
Variable config : Config.

















End WorkspaceFacts.


(** ** The command line *)

Section MainFacts.
Variable env : Env.
Variable args : Args.

(** The start-up check, case by case. *)
Lemma validate_ffmpeg_run config s :
  validate_ffmpeg env config s
  = let probed := trace s ++ [EvProbe [ffmpeg_path config; "-version"]] in
    match probe env with
    | RunOk => (Ok tt, mkWorld (temp s) probed)
    | RunPermissionDenied => (Raise PermissionError, mkWorld (temp s) probed)
    | _ =>
        (Raise (SystemExit 1),
         mkWorld (temp s)
           (probed ++
            [EvPrint "ffmpeg not found: install it or give an absolute path";
             EvPrint "download: https://ffmpeg.org/download.html"]))
    end.
Proof.
  unfold validate_ffmpeg, try_except, bind, emit, subprocess_run, raise, ret.
  destruct (probe env); simpl; rewrite <- ?app_assoc; reflexivity.
Qed.

Lemma main_run t :
  main env args (initial_world t)
  = let config := config_of args in
    let probed := [EvProbe [ffmpeg_path config; "-version"]] in
    if input_exists env then
      match probe env with
      | RunOk =>
          convert env config (arg_input args) (arg_output args)
                  (mkWorld t (probed ++ [EvSetupFigure]))
      | RunPermissionDenied => (Raise PermissionError, mkWorld t probed)
      | _ =>
          (Raise (SystemExit 1),
           mkWorld t
             (probed ++
              [EvPrint "ffmpeg not found: install it or give an absolute path";
               EvPrint "download: https://ffmpeg.org/download.html"]))
      end
    else
      (Raise (SystemExit 1),
       mkWorld t
         [EvPrint ("input file does not exist: " +:+ arg_input args)]).
Proof.
  unfold main. destruct (input_exists env); [|reflexivity].
  unfold init, bind at 1. unfold bind at 1. rewrite validate_ffmpeg_run.
  destruct (probe env); reflexivity.
Qed.

(** The trace of a run that reaches the converter. *)
Lemma main_trace_probed t :
  input_exists env = true -> probe env = RunOk ->
  exists tr,
    trace (main env args (initial_world t)).2
    = EvProbe [ffmpeg_path (config_of args); "-version"]
        :: EvSetupFigure :: tr /\
    Forall not_probe tr.
Proof.
  intros Hin Hprobe. rewrite main_run. cbv zeta. rewrite Hin, Hprobe.
  destruct (sound_convert env (config_of args) (arg_input args)
              (arg_output args)
              (mkWorld t ([EvProbe [ffmpeg_path (config_of args); "-version"]]
                          ++ [EvSetupFigure])))
    as ((tr & Htr & Hall) & _).
  exists tr. split; [exact Htr|exact Hall].
Qed.


End MainFacts.

Lemma filter_not_probe tr :
  Forall not_probe tr -> List.filter is_probe tr = [].
Proof.
  induction 1 as [|e tr He _ IH]; [reflexivity|].
  simpl. unfold not_probe in He. rewrite He. exact IH.
Qed.

Lemma no_job_event_split tr pre e post :
  Forall (fun e => is_job_event e = false) tr ->
  tr = pre ++ e :: post -> is_job_event e = true -> False.
Proof.
  intros Hall -> He. apply Forall_app in Hall as [_ Hall].
  inversion Hall; subst. congruence.
Qed.

Section ExitFacts.
Variable env : Env.
Variable config : Config.






End ExitFacts.


(** C8.  In every run of the command line the encoder is probed at most
    once, and exactly once when the input path exists; any event of the
    conversion job (workspace creation, reading, rendering, encoding,
    clean-up) has the probe before it in the trace; and when the probe
    does not succeed (executable missing, non-zero exit, or not
    runnable) the exit status is 1 and the trace holds no job event. *)
Theorem encoder_validated_before_work env args t :
  let final := main env args (initial_world t) in
  (length (List.filter is_probe (trace final.2)) <= 1)%nat /\
  (input_exists env = true ->
     length (List.filter is_probe (trace final.2)) = 1%nat) /\
  (forall pre e post,
     trace final.2 = pre ++ e :: post -> is_job_event e = true ->
     exists cmd, In (EvProbe cmd) pre) /\
  (probe env <> RunOk ->
     exit_status final.1 = Some 1 /\
     Forall (fun e => is_job_event e = false) (trace final.2)).
Proof.
  intros final. unfold final.
  destruct (input_exists env) eqn:Hin, (probe env) eqn:Hprobe;
    try (rewrite main_run; cbv zeta; rewrite Hin, ?Hprobe;
         cbn [fst snd trace exit_status app List.filter is_probe length];
         split; [lia|]; split; [try reflexivity; discriminate|];
         split; [|intros _; split; [reflexivity|repeat constructor]];
         intros pre e post Htr He; exfalso;
         eapply no_job_event_split; [|exact Htr|exact He];
         repeat constructor).
  destruct (main_trace_probed env args t Hin Hprobe) as (tr & -> & Hall).
  cbn [List.filter is_probe length]. rewrite (filter_not_probe tr Hall).
  split; [simpl; lia|]. split; [reflexivity|]. split; [|congruence].
  intros [|x pre] e post Htr He; simpl in Htr.
  - injection Htr as <- _. discriminate.
  - injection Htr as <- _. eexists. left. reflexivity.
Qed.






(** ** The statements at concrete inputs *)

Lemma example_wav_well_formed : Wave.well_formed example_wav.
Proof.
  unfold Wave.well_formed. vm_compute.
  repeat split; try reflexivity; discriminate.
Defined.

Lemma example_color_accepted config :
  wave_color config = "#C04851" -> color_accepted example_env config.
Proof.
  intros Hc. unfold color_accepted. rewrite Hc.
  eexists. split; [vm_compute; reflexivity|reflexivity].
Defined.

(** C1 at the five-frame stream with two frames per chunk: three frames,
    the last of one sample. *)
Lemma convert_loop_frame_count_witness :
  exists plots,
    (frame_loop example_env (config_of example_args)
                (S (length (Wave.rest example_wav))) example_wav
                (Wave.framerate example_wav / fps (config_of example_args))
                (Wave.nchannels example_wav) (Wave.framerate example_wav)
                (Wave.nframes example_wav) 0 (initial_world (Dir ∅))).1
    = Ok (length plots) /\
    Z.of_nat (length plots) = 3 /\
    exists p, last plots = Some p /\ Z.of_nat (Numpy.len (plot_data p)) = 1.
Proof.
  destruct (convert_loop_frame_count example_env (config_of example_args)
              example_wav (initial_world (Dir ∅)) ∅
              example_wav_well_formed
              ltac:(split; [reflexivity|discriminate])
              (example_color_accepted (config_of example_args) eq_refl)
              (fun _ => eq_refl) eq_refl)
    as (_ & plots & Hres & _ & Hcount & _ & Hlast).
  exists plots. split; [exact Hres|]. split; [exact Hcount|].
  destruct (Hlast ltac:(discriminate)) as (p & Hp & Hlen & _).
  exists p. split; [exact Hp|exact Hlen].
Defined.





(** C4 at two stereo frames [(1, 3)] and [(5, 9)]. *)
Lemma downmix_channel_mean_witness :
  exists ys,
    downmix [1; 3; 5; 9] 2 = Ok (Numpy.Float64Arr ys) /\ length ys = 2%nat.
Proof.
  destruct (downmix_channel_mean [1; 3; 5; 9] 2 2 ltac:(lia) eq_refl)
    as (ys & Hys & Hlen & _).
  exists ys. split; [exact Hys|exact Hlen].
Defined.

(** C6 (amended) at three samples of silence and 44100 Hz. *)
Lemma time_axis_closed_interval_witness :
  exists p,
    plot_frame example_env DEFAULT_CONFIG (silent_chunk 3) 44100 = Ok p /\
    length (plot_time p) = 3%nat /\
    last (plot_time p) = Some (Numpy.Q_of_nat 3 / inject_Z 44100)%Q.
Proof.
  eexists. split; [reflexivity|].
  destruct (time_axis_closed_interval example_env DEFAULT_CONFIG
              (silent_chunk 3) 44100 _ ltac:(lia) eq_refl)
    as (Hlen & _ & Hlast).
  split; [exact Hlen|]. exact (Hlast ltac:(simpl; lia)).
Defined.

(** C10 at a 4 Hz stream and 30 frames per second. *)
Lemma zero_chunk_loop_ends_witness :
  frame_loop example_env DEFAULT_CONFIG
             (S (length (Wave.rest example_wav))) example_wav
             (Wave.framerate example_wav / fps DEFAULT_CONFIG)
             (Wave.nchannels example_wav) (Wave.framerate example_wav)
             (Wave.nframes example_wav) 0 (initial_world (Dir ∅))
  = (Ok 0%nat, initial_world (Dir ∅)).
Proof.
  exact (proj1 (proj2 (zero_chunk_loop_ends example_env DEFAULT_CONFIG
                         example_wav (initial_world (Dir ∅))
                         "in.wav" "output.mov"
                         ltac:(discriminate) eq_refl))).
Defined.

(** * Further properties of the script *)

(** ** Amplitudes and vertical limits *)

Section AmplitudeFacts.
Import Numpy.

Lemma Qmin_cases x y : Qmin x y = x \/ Qmin x y = y.
Proof. unfold Qmin, GenericMinMax.gmin. destruct (x ?= y)%Q; auto. Qed.

Lemma Qmax_cases x y : Qmax x y = x \/ Qmax x y = y.
Proof. unfold Qmax, GenericMinMax.gmax. destruct (x ?= y)%Q; auto. Qed.

Lemma fold_Qmin_le_acc vs : forall u, (fold_left Qmin vs u <= u)%Q.
Proof.
  induction vs as [|a vs IH]; intros u; simpl; [apply Qle_refl|].
  eapply Qle_trans; [apply IH|apply Q.le_min_l].
Qed.

Lemma fold_Qmin_le vs : forall u x, In x vs -> (fold_left Qmin vs u <= x)%Q.
Proof.
  induction vs as [|a vs IH]; intros u x Hx; simpl in *; [contradiction|].
  destruct Hx as [<-|Hx]; [|apply IH; exact Hx].
  eapply Qle_trans; [apply fold_Qmin_le_acc|apply Q.le_min_r].
Qed.

Lemma fold_Qmin_In vs : forall u, In (fold_left Qmin vs u) (u :: vs).
Proof.
  induction vs as [|a vs IH]; intros u; simpl; [auto|].
  destruct (IH (Qmin u a)) as [H|H]; [|auto].
  rewrite <- H. destruct (Qmin_cases u a) as [->| ->]; auto.
Qed.

Lemma fold_Qmax_ge_acc vs : forall u, (u <= fold_left Qmax vs u)%Q.
Proof.
  induction vs as [|a vs IH]; intros u; simpl; [apply Qle_refl|].
  eapply Qle_trans; [apply Q.le_max_l|apply IH].
Qed.

Lemma fold_Qmax_ge vs : forall u x, In x vs -> (x <= fold_left Qmax vs u)%Q.
Proof.
  induction vs as [|a vs IH]; intros u x Hx; simpl in *; [contradiction|].
  destruct Hx as [<-|Hx]; [|apply IH; exact Hx].
  eapply Qle_trans; [apply Q.le_max_r|apply fold_Qmax_ge_acc].
Qed.

Lemma fold_Qmax_In vs : forall u, In (fold_left Qmax vs u) (u :: vs).
Proof.
  induction vs as [|a vs IH]; intros u; simpl; [auto|].
  destruct (IH (Qmax u a)) as [H|H]; [|auto].
  rewrite <- H. destruct (Qmax_cases u a) as [->| ->]; auto.
Qed.

(** [np.min] gives an entry of the array that is below all the others,
    [np.max] one that is above. *)
Lemma np_min_spec a lo :
  np_min a = Some lo ->
  In lo (values a) /\ forall v, In v (values a) -> (lo <= v)%Q.
Proof.
  unfold np_min. destruct (values a) as [|u vs]; [discriminate|].
  intros [= <-]. split; [apply fold_Qmin_In|].
  intros v [<-|Hv]; [apply fold_Qmin_le_acc|apply fold_Qmin_le; exact Hv].
Qed.

Lemma np_max_spec a hi :
  np_max a = Some hi ->
  In hi (values a) /\ forall v, In v (values a) -> (v <= hi)%Q.
Proof.
  unfold np_max. destruct (values a) as [|u vs]; [discriminate|].
  intros [= <-]. split; [apply fold_Qmax_In|].
  intros v [<-|Hv]; [apply fold_Qmax_ge_acc|apply fold_Qmax_ge; exact Hv].
Qed.

Lemma scale_11_10_le x : (x <= 0)%Q <-> (x * (11 # 10) <= x)%Q.
Proof.
  destruct x as [n d]. unfold Qle, Qmult. simpl. split; intros H; nia.
Qed.

Lemma scale_11_10_ge x : (0 <= x)%Q <-> (x <= x * (11 # 10))%Q.
Proof.
  destruct x as [n d]. unfold Qle, Qmult. simpl. split; intros H; nia.
Qed.

Lemma scale_11_10_mono x y : (x <= y)%Q -> (x * (11 # 10) <= y * (11 # 10))%Q.
Proof. intros H. apply Qmult_le_compat_r; [exact H|discriminate]. Qed.

(** X1.  The vertical limits of a rendered frame are in order, and they
    enclose the whole curve exactly when the chunk has a sample at or
    below zero and a sample at or above zero: scaling the minimum by 1.1
    moves the lower limit above a positive minimum, and likewise for a
    negative maximum. *)
Theorem ylim_encloses_series env config data sample_rate p :
  plot_frame env config data sample_rate = Ok p ->
  (fst (plot_ylim p) <= snd (plot_ylim p))%Q /\
  ((forall v, In v (values data) ->
      (fst (plot_ylim p) <= v)%Q /\ (v <= snd (plot_ylim p))%Q)
   <->
   (exists a b, In a (values data) /\ In b (values data) /\
                (a <= 0)%Q /\ (0 <= b)%Q)).
Proof.
  intros Hp. destruct (plot_frame_inv _ _ _ _ _ Hp)
    as (_ & _ & _ & _ & lo & hi & Hlo & Hhi & ->).
  destruct (np_min_spec _ _ Hlo) as [Hlo_in Hlo_le].
  destruct (np_max_spec _ _ Hhi) as [Hhi_in Hhi_ge].
  cbn [fst snd]. split; [apply scale_11_10_mono, Hlo_le, Hhi_in|]. split.
  - intros Hall. exists lo, hi. repeat split; try assumption.
    + apply scale_11_10_le. apply (Hall lo Hlo_in).
    + apply scale_11_10_ge. apply (Hall hi Hhi_in).
  - intros (a & b & Ha & Hb & Ha0 & Hb0) v Hv. split.
    + eapply Qle_trans; [|apply Hlo_le, Hv]. apply scale_11_10_le.
      eapply Qle_trans; [apply Hlo_le, Ha|exact Ha0].
    + eapply Qle_trans; [apply Hhi_ge, Hv|]. apply scale_11_10_ge.
      eapply Qle_trans; [exact Hb0|apply Hhi_ge, Hb].
Qed.

End AmplitudeFacts.

(** ** Limits that coincide *)

Module MatplotlibFacts.
Import Matplotlib.

Lemma Qltb_true x y : Qltb x y = true <-> (x < y)%Q.
Proof.
  unfold Qltb. rewrite negb_true_iff. split.
  - intros H. apply Qnot_le_lt. intros Hle. apply Qle_bool_iff in Hle.
    congruence.
  - intros H. destruct (Qle_bool y x) eqn:E; [|reflexivity].
    apply Qle_bool_iff in E. exfalso. exact (Qlt_not_le _ _ H E).
Qed.

Lemma Qltb_false x y : Qltb x y = false <-> (y <= x)%Q.
Proof.
  unfold Qltb. rewrite negb_false_iff. apply Qle_bool_iff.
Qed.

(** The size below which a range counts as no range at all lies far
    below the margin put in its place. *)
Lemma tiny_range_small :
  ((1000000 / (1 # 10 ^ 15)) * float_tiny < 5 # 100)%Q.
Proof. unfold Qlt, Z.lt. vm_compute. reflexivity. Qed.

Lemma Qabs_pos x : ~ (x == 0)%Q -> (0 < Qabs x)%Q.
Proof.
  intros Hx. destruct (Qlt_le_dec 0 (Qabs x)) as [H|H]; [exact H|].
  exfalso. apply Hx. apply Qabs_Qle_condition in H. lra.
Qed.

(** On limits in order, whatever the branch, the lower end comes out
    strictly below the upper end. *)
Lemma nonsingular_sorted lo hi e t :
  (lo <= hi)%Q -> (0 < e)%Q -> (0 <= t)%Q ->
  let maxabsvalue := Qmax (Qabs lo) (Qabs hi) in
  let r :=
    if Qltb maxabsvalue ((1000000 / t) * float_tiny)%Q then
      ((- e)%Q, e)
    else if Qle_bool (hi - lo) (maxabsvalue * t) then
      if Qeq_bool hi 0 && Qeq_bool lo 0 then ((- e)%Q, e)
      else ((lo - e * Qabs lo)%Q, (hi + e * Qabs hi)%Q)
    else (lo, hi) in
  (fst r < snd r)%Q.
Proof.
  intros Hle He Ht maxabsvalue r. unfold r.
  destruct (Qltb _ _); [simpl; lra|].
  destruct (Qle_bool _ _) eqn:Hspan.
  - destruct (Qeq_bool hi 0 && Qeq_bool lo 0) eqn:Hz; [simpl; lra|].
    cbn [fst snd].
    pose proof (Qabs_nonneg lo) as Hlo. pose proof (Qabs_nonneg hi) as Hhi.
    pose proof (Qmult_le_0_compat e (Qabs lo) ltac:(lra) Hlo) as Hlo'.
    pose proof (Qmult_le_0_compat e (Qabs hi) ltac:(lra) Hhi) as Hhi'.
    apply andb_false_iff in Hz as [Hz|Hz].
    + assert (Hpos : (0 < Qabs hi)%Q).
      { apply Qabs_pos. intros H. apply Qeq_bool_iff in H. congruence. }
      pose proof (Qmult_lt_0_compat e (Qabs hi) He Hpos). lra.
    + assert (Hpos : (0 < Qabs lo)%Q).
      { apply Qabs_pos. intros H. apply Qeq_bool_iff in H. congruence. }
      pose proof (Qmult_lt_0_compat e (Qabs lo) He Hpos). lra.
  - cbn [fst snd].
    assert (Hlt : (maxabsvalue * t < hi - lo)%Q).
    { apply Qnot_le_lt. intros H. apply Qle_bool_iff in H. congruence. }
    assert (Hm : (0 <= maxabsvalue)%Q).
    { eapply Qle_trans; [apply (Qabs_nonneg lo)|apply Q.le_max_l]. }
    pose proof (Qmult_le_0_compat _ _ Hm Ht). lra.
Qed.

Lemma nonsingular_increasing vmin vmax e t :
  (0 < e)%Q -> (0 <= t)%Q ->
  (fst (nonsingular vmin vmax e t) < snd (nonsingular vmin vmax e t))%Q.
Proof.
  intros He Ht. unfold nonsingular. destruct (Qltb vmax vmin) eqn:Hsw.
  - apply Qltb_true in Hsw.
    apply (nonsingular_sorted vmax vmin e t); [lra|exact He|exact Ht].
  - apply Qltb_false in Hsw.
    apply (nonsingular_sorted vmin vmax e t); [lra|exact He|exact Ht].
Qed.

(** Limits handed over in order are stored in order, and apart. *)
Lemma set_lim_span v0 v1 :
  (v0 <= v1)%Q -> (fst (set_lim v0 v1) < snd (set_lim v0 v1))%Q.
Proof.
  intros Hle. unfold set_lim, locator_nonsingular.
  assert (Hrev : Qltb v1 v0 = false) by (apply Qltb_false; exact Hle).
  rewrite Hrev.
  pose proof (nonsingular_increasing v0 v1 (5 # 100) (1 # 10 ^ 15)
                ltac:(reflexivity) ltac:(discriminate)) as H.
  destruct (nonsingular _ _ _ _). exact H.
Qed.

(** Limits that coincide. *)
Lemma set_lim_diag v :
  set_lim v v
  = if Qltb (Qabs v) ((1000000 / (1 # 10 ^ 15)) * float_tiny)%Q then
      ((- (5 # 100))%Q, (5 # 100)%Q)
    else if Qeq_bool v 0 then ((- (5 # 100))%Q, (5 # 100)%Q)
    else ((v - (5 # 100) * Qabs v)%Q, (v + (5 # 100) * Qabs v)%Q).
Proof.
  unfold set_lim, locator_nonsingular, nonsingular.
  assert (Hrev : Qltb v v = false) by (apply Qltb_false; apply Qle_refl).
  rewrite Hrev, Qmax_diag.
  destruct (Qltb (Qabs v) _); [reflexivity|].
  assert (Hspan : Qle_bool (v - v) (Qabs v * (1 # 10 ^ 15)) = true).
  { apply Qle_bool_iff. pose proof (Qabs_nonneg v) as Hv.
    pose proof (Qmult_le_0_compat (Qabs v) (1 # 10 ^ 15) Hv
                  ltac:(discriminate)). lra. }
  rewrite Hspan. destruct (Qeq_bool v 0); reflexivity.
Qed.

Lemma set_lim_diag_around v :
  (fst (set_lim v v) < v /\ v < snd (set_lim v v))%Q.
Proof.
  rewrite set_lim_diag. destruct (Qltb (Qabs v) _) eqn:Htiny.
  - apply Qltb_true in Htiny. pose proof tiny_range_small as Hs.
    assert (Hv : (Qabs v < 5 # 100)%Q) by (eapply Qlt_trans; eassumption).
    apply Qabs_Qlt_condition in Hv. cbn [fst snd]. lra.
  - destruct (Qeq_bool v 0) eqn:Hz.
    + apply Qeq_bool_iff in Hz. cbn [fst snd]. lra.
    + assert (Hpos : (0 < Qabs v)%Q).
      { apply Qabs_pos. intros H. apply Qeq_bool_iff in H. congruence. }
      pose proof (Qmult_lt_0_compat (5 # 100) (Qabs v) ltac:(reflexivity) Hpos).
      cbn [fst snd]. lra.
Qed.

Lemma set_lim_diag_zero v :
  (v == 0)%Q -> set_lim v v = ((- (5 # 100))%Q, (5 # 100)%Q).
Proof.
  intros Hv. rewrite set_lim_diag.
  assert (Hz : Qeq_bool v 0 = true) by (apply Qeq_bool_iff; exact Hv).
  rewrite Hz. destruct (Qltb _ _); reflexivity.
Qed.

End MatplotlibFacts.

(** C3.  Every frame drawn of a non-empty chunk (in a colour the
    renderer accepts, at a non-zero sample rate) has a vertical axis
    whose upper bound lies strictly above its lower bound.  For a chunk
    whose samples all equal [c] the two limits handed to [set_ylim]
    coincide at [c * 1.1], and what the axis ends up with is a range put
    in their place that holds the value strictly inside; for silence it
    is [(-0.05, 0.05)]. *)
Theorem constant_chunk_axis_span env config data sample_rate :
  color_accepted env config -> sample_rate <> 0 ->
  (0 < Numpy.len data)%nat ->
  exists p,
    plot_frame env config data sample_rate = Ok p /\
    (fst (axis_ylim p) < snd (axis_ylim p))%Q /\
    forall (c : Q) (n : nat),
      Numpy.values data = replicate (S n) c ->
      plot_ylim p = ((c * (11 # 10))%Q, (c * (11 # 10))%Q) /\
      (fst (axis_ylim p) < c * (11 # 10))%Q /\
      (c * (11 # 10) < snd (axis_ylim p))%Q /\
      ((c == 0)%Q -> axis_ylim p = ((- (5 # 100))%Q, (5 # 100)%Q)).
Proof.
  intros Hcolor Hsr Hlen.
  destruct (plot_frame_ok env config data sample_rate Hcolor Hsr Hlen)
    as (lo & hi & color & Hlo & Hhi & Hp).
  eexists. split; [exact Hp|]. split.
  - unfold axis_ylim. cbn [plot_ylim fst snd].
    apply MatplotlibFacts.set_lim_span. apply scale_11_10_mono.
    destruct (np_min_spec _ _ Hlo) as [_ Hle].
    destruct (np_max_spec _ _ Hhi) as [Hin _]. exact (Hle hi Hin).
  - intros c n Hc.
    pose proof (constant_chunk_limits env config data sample_rate c n _ Hp Hc)
      as Hlim.
    split; [exact Hlim|]. unfold axis_ylim. rewrite Hlim. cbn [fst snd].
    destruct (MatplotlibFacts.set_lim_diag_around (c * (11 # 10))) as [H1 H2].
    split; [exact H1|]. split; [exact H2|]. intros H0.
    apply MatplotlibFacts.set_lim_diag_zero. rewrite H0. reflexivity.
Qed.

Section RangeFacts.
Import Numpy.

Lemma int16_of_bytes_range lo hi :
  -32768 <= int16_of_bytes lo hi <= 32767.
Proof.
  unfold int16_of_bytes.
  pose proof (Byte.to_N_bounded lo). pose proof (Byte.to_N_bounded hi).
  destruct (_ <? 32768) eqn:E; [apply Z.ltb_lt in E|apply Z.ltb_ge in E]; lia.
Qed.

Lemma frombuffer_int16_range raw : forall xs,
  frombuffer_int16 raw = Some xs ->
  Forall (fun x => -32768 <= x <= 32767) xs.
Proof.
  induction raw as [raw IH] using (induction_ltof1 _ (@length byte)).
  unfold ltof in IH. intros xs Hxs.
  destruct raw as [|lo [|hi raw']]; simpl in Hxs; try discriminate.
  - injection Hxs as <-. constructor.
  - destruct (frombuffer_int16 raw') as [ys|] eqn:Eys; [|discriminate].
    injection Hxs as <-. constructor; [apply int16_of_bytes_range|].
    apply (IH raw'); [simpl; lia|exact Eys].
Qed.

Lemma sum_Z_bounds lo hi row :
  Forall (fun x => lo <= x <= hi) row ->
  lo * Z.of_nat (length row) <= sum_Z row <= hi * Z.of_nat (length row).
Proof.
  induction 1 as [|x row Hx _ IH]; simpl; [lia|].
  rewrite Nat2Z.inj_succ. lia.
Qed.

(** The mean of a non-empty row lies between any bounds of its entries. *)
Lemma mean_row_bounds lo hi row :
  row <> [] -> Forall (fun x => lo <= x <= hi) row ->
  (inject_Z lo <= mean_row row)%Q /\ (mean_row row <= inject_Z hi)%Q.
Proof.
  intros Hne Hall. pose proof (sum_Z_bounds lo hi row Hall) as [Hl Hh].
  assert (Hn : (0 < inject_Z (Z.of_nat (length row)))%Q).
  { destruct row; [congruence|]. unfold Qlt. simpl. lia. }
  unfold mean_row. split.
  - apply Qle_shift_div_l; [exact Hn|].
    rewrite <- inject_Z_mult, <- Zle_Qle. exact Hl.
  - apply Qle_shift_div_r; [exact Hn|].
    rewrite <- inject_Z_mult, <- Zle_Qle. exact Hh.
Qed.

Lemma reshape_rows_entries xs n rows :
  reshape_rows xs n = Some rows ->
  Forall (fun row => row <> [] /\ forall x, In x row -> In x xs) rows.
Proof.
  unfold reshape_rows. destruct n as [|n']; [discriminate|].
  destruct (_ =? 0)%nat eqn:E; [|discriminate]. intros [= <-].
  apply Nat.eqb_eq in E. apply List.Forall_forall. intros row Hrow.
  apply in_map_iff in Hrow as (i & <- & Hi). apply in_seq in Hi.
  change (Nat.divmod (length xs) n' 0 n').1
    with (length xs / S n')%nat in Hi.
  pose proof (Nat.div_mod_eq (length xs) (S n')) as Hdm.
  rewrite E in Hdm. remember (length xs / S n')%nat as q eqn:Hq. clear Hq.
  assert (Hlen : (i * S n' + S n' <= length xs)%nat) by nia.
  split.
  - intros H0. apply (f_equal length) in H0.
    rewrite length_take, length_drop in H0. cbn [length] in H0. lia.
  - intros x Hx. apply list_elem_of_In in Hx.
    apply list_elem_of_In.
    apply (subseteq_drop (i * S n') xs), (subseteq_take (S n')). exact Hx.
Qed.

(** X2.  Whatever the number of channels, every amplitude that the
    decoding and downmixing step hands to the renderer lies within the
    range of a signed 16-bit sample. *)
Theorem decode_within_int16_range raw_data num_channels data :
  decode raw_data num_channels = Ok data ->
  forall v, In v (values data) -> in_int16_range v.
Proof.
  unfold decode. destruct (frombuffer_int16 raw_data) as [xs|] eqn:Exs;
    [|discriminate].
  pose proof (frombuffer_int16_range raw_data xs Exs) as Hxs.
  unfold downmix. destruct (1 <? num_channels).
  - destruct (reshape_rows xs _) as [rows|] eqn:Erows; [|discriminate].
    intros [= <-] v Hv. simpl in Hv. unfold mean_axis1 in Hv.
    apply in_map_iff in Hv as (row & <- & Hrow).
    pose proof (reshape_rows_entries _ _ _ Erows) as Hrows.
    rewrite List.Forall_forall in Hrows. destruct (Hrows row Hrow) as [Hne Hsub].
    apply (mean_row_bounds (-32768) 32767 row Hne).
    apply List.Forall_forall. intros x Hx. rewrite List.Forall_forall in Hxs.
    apply Hxs, Hsub, Hx.
  - intros [= <-] v Hv. simpl in Hv.
    apply in_map_iff in Hv as (x & <- & Hx).
    rewrite List.Forall_forall in Hxs. specialize (Hxs x Hx).
    unfold in_int16_range. rewrite <- !Zle_Qle. exact Hxs.
Qed.

End RangeFacts.

(** ** Colours *)

Section ColourFacts.
Variable env : Env.

Lemma lstrip_hash_cons c s :
  lstrip_hash (String c s)
  = if Ascii.eqb c "#" then lstrip_hash s else String c s.
Proof.
  destruct c as [[] [] [] [] [] [] [] []]; reflexivity.
Qed.

Lemma lstrip_hash_app s t :
  lstrip_hash s <> EmptyString ->
  lstrip_hash (s +:+ t) = lstrip_hash s +:+ t.
Proof.
  induction s as [|c s IH]; intros Hne; [simpl in Hne; congruence|].
  change (String c s +:+ t) with (String c (s +:+ t)).
  rewrite (lstrip_hash_cons c s) in Hne.
  rewrite (lstrip_hash_cons c s), (lstrip_hash_cons c (s +:+ t)).
  destruct (Ascii.eqb c "#").
  - apply IH. exact Hne.
  - reflexivity.
Qed.

Lemma substring_app n m : forall s t,
  (n + m <= String.length s)%nat ->
  substring n m (s +:+ t) = substring n m s.
Proof.
  revert m. induction n as [|n IHn].
  - induction m as [|m IHm]; intros s t Hlen.
    + destruct s, t; reflexivity.
    + destruct s as [|c s]; [simpl in Hlen; lia|].
      change (String c s +:+ t) with (String c (s +:+ t)). cbn [substring].
      rewrite IHm by (simpl in Hlen; lia). reflexivity.
  - intros m s t Hlen. destruct s as [|c s]; [simpl in Hlen; lia|].
    change (String c s +:+ t) with (String c (s +:+ t)). cbn [substring].
    apply IHn. simpl in Hlen. lia.
Qed.

Lemma substring_beyond n m : forall s,
  (String.length s <= n)%nat -> substring n m s = EmptyString.
Proof.
  induction n as [|n IH]; intros s Hlen.
  - destruct s; [|simpl in Hlen; lia]. destruct m; reflexivity.
  - destruct s as [|c s]; [reflexivity|]. cbn [substring].
    apply IH. simpl in Hlen. lia.
Qed.

(** X3.  Only the first six characters after the leading [#] characters
    count: whatever follows them (for instance the alpha digits of an
    eight-digit colour) is ignored, and the alpha component of the result
    is 1 in every case. *)
Theorem hex_to_rgba_ignores_tail hex_color tail :
  (6 <= String.length (lstrip_hash hex_color))%nat ->
  hex_to_rgba env (hex_color +:+ tail) = hex_to_rgba env hex_color /\
  hex_to_rgba env (String "#" hex_color) = hex_to_rgba env hex_color /\
  (forall r g b a,
     hex_to_rgba env (hex_color +:+ tail) = Some (r, g, b, a) -> a = 1%Q).
Proof.
  intros Hlen.
  assert (Htail : hex_to_rgba env (hex_color +:+ tail)
                  = hex_to_rgba env hex_color).
  { unfold hex_to_rgba. rewrite lstrip_hash_app.
    - rewrite !substring_app by lia. reflexivity.
    - intros H0. rewrite H0 in Hlen. simpl in Hlen. lia. }
  split; [exact Htail|]. split; [reflexivity|].
  intros r g b a. rewrite Htail. unfold hex_to_rgba.
  repeat match goal with
         | |- context [match int_base16 env ?x with _ => _ end] =>
             destruct (int_base16 env x)
         end; try discriminate.
  intros [= _ _ _ <-]. reflexivity.
Qed.

(** X4.  A colour with fewer than five characters after the leading [#]
    (the three-digit shorthand, say) leaves the third slice empty; the
    built-in [int] refuses an empty string, so every call of the renderer
    raises [ValueError] before anything is drawn or written. *)
Theorem short_colour_rejected config data frame_idx sample_rate s :
  int_base16 env EmptyString = None ->
  (String.length (lstrip_hash (wave_color config)) <= 4)%nat ->
  sample_rate <> 0 ->
  hex_to_rgba env (wave_color config) = None /\
  render_frame env config data frame_idx sample_rate s
  = (Raise ValueError, s).
Proof.
  intros Hint Hlen Hsr.
  assert (Hnone : hex_to_rgba env (wave_color config) = None).
  { unfold hex_to_rgba. rewrite (substring_beyond 4 2) by exact Hlen.
    rewrite Hint.
    repeat match goal with
           | |- context [match int_base16 env ?x with _ => _ end] =>
               destruct (int_base16 env x)
           end; reflexivity. }
  split; [exact Hnone|]. rewrite render_frame_run. unfold plot_frame.
  destruct (sample_rate =? 0) eqn:E; [apply Z.eqb_eq in E; contradiction|].
  rewrite Hnone. reflexivity.
Qed.

End ColourFacts.

(** ** The order of a run *)

Section ShapeFacts.
Variable env : Env.
Variable config : Config.




End ShapeFacts.


(** ** The workspace during the loop *)

Section FilesFacts.
Variable env : Env.
Variable config : Config.

(** X6.  The loop only ever adds or replaces the files of the frames it
    hands to [savefig]: any other entry of the workspace directory (a
    stale frame with a higher index left by an earlier run, say) is
    still there, unchanged, when the loop is over.  And when the loop
    hands back a frame count, each of its frames sits in a file of its
    own, holding its own picture: none has been overwritten by another. *)
Theorem frame_loop_files fuel : forall wav cs nc sr tf k s d,
  temp s = Dir d ->
  exists d' plots,
    temp (frame_loop env config fuel wav cs nc sr tf k s).2 = Dir d' /\
    rendered (trace (frame_loop env config fuel wav cs nc sr tf k s).2)
    = rendered (trace s) ++ frames_from config k plots /\
    (forall name,
       (forall j, (j < length plots)%nat ->
                  name <> Paths.frame_name (k + j)) ->
       d' !! name = d !! name) /\
    (forall n, (frame_loop env config fuel wav cs nc sr tf k s).1 = Ok n ->
       n = (k + length plots)%nat /\
       forall j p, plots !! j = Some p ->
                   d' !! Paths.frame_name (k + j) = Some (PngFrame p)).
Proof.
  induction fuel as [|fuel IH]; intros wav cs nc sr tf k s d Hd.
  { exists d, []. simpl. rewrite app_nil_r. repeat split; auto; discriminate. }
  rewrite frame_loop_unfold.
  destruct (Wave.readframes wav cs).1 as [|b raw].
  { exists d, []. simpl. rewrite app_nil_r.
    split; [exact Hd|]. split; [reflexivity|]. split; [auto|].
    intros n [= <-]. split; [lia|].
    intros j p Hj. rewrite lookup_nil in Hj. discriminate. }
  destruct (decode (b :: raw) nc) as [data|e|];
    try (exists d, []; simpl; rewrite app_nil_r; repeat split; auto;
         discriminate).
  rewrite render_frame_run.
  destruct (plot_frame env config data sr) as [p|e|];
    try (exists d, []; simpl; rewrite app_nil_r; repeat split; auto;
         discriminate).
  cbv zeta. rewrite Hd.
  destruct (savefig_ok env k).
  2:{ exists d, [p]. cbn [fst snd temp trace].
      rewrite rendered_app, frames_from_cons. repeat split; auto; discriminate. }
  rewrite progress_run. destruct (tf =? 0).
  { exists (<[Paths.frame_name k := PngFrame p]> d), [p].
    cbn [fst snd temp trace]. rewrite rendered_app, frames_from_cons.
    repeat split; auto; try discriminate.
    intros name Hname. apply lookup_insert_ne.
    specialize (Hname 0%nat ltac:(simpl; lia)). rewrite Nat.add_0_r in Hname.
    congruence. }
  match goal with
  | |- context [frame_loop _ _ _ ?w _ _ _ _ _ ?s2] =>
      destruct (IH w cs nc sr tf (S k) s2
                   (<[Paths.frame_name k := PngFrame p]> d) eq_refl)
        as (d' & plots & Hd' & Htr & Hkeep & Hok)
  end.
  exists d', (p :: plots). split; [exact Hd'|]. split; [|split].
  - rewrite Htr. cbn [trace]. rewrite !rendered_app.
    rewrite (frames_from_cons config k p plots).
    cbn [rendered]. rewrite app_nil_r, <- app_assoc. reflexivity.
  - intros name Hname. rewrite Hkeep.
    + apply lookup_insert_ne.
      specialize (Hname 0%nat ltac:(simpl; lia)).
      rewrite Nat.add_0_r in Hname. congruence.
    + intros j Hj. specialize (Hname (S j) ltac:(simpl; lia)).
      replace (k + S j)%nat with (S k + j)%nat in Hname by lia. exact Hname.
  - intros n Hn. destruct (Hok n Hn) as [-> Hfiles]. split; [simpl; lia|].
    intros [|j] q Hq.
    + injection Hq as <-. rewrite Nat.add_0_r, Hkeep.
      * apply lookup_insert_eq.
      * intros j _ Heq. apply PathsFacts.frame_name_inj in Heq. lia.
    + simpl in Hq. replace (k + S j)%nat with (S k + j)%nat by lia.
      apply Hfiles. exact Hq.
Qed.

End FilesFacts.

(** ** Progress, odd frame rates and early failures *)

Lemma progress_of_app tr1 tr2 :
  progress_of (tr1 ++ tr2) = progress_of tr1 ++ progress_of tr2.
Proof.
  induction tr1 as [|e tr1 IH]; [reflexivity|].
  destruct e; simpl; rewrite IH; reflexivity.
Qed.

(** A negative request returns everything that is left. *)
Lemma readframes_negative w n :
  n < 0 -> 0 < Wave.framesize w ->
  (Wave.readframes w n).1 = Wave.rest w /\
  Wave.rest (Wave.readframes w n).2 = [].
Proof.
  intros Hn Hfs. unfold Wave.readframes.
  destruct (n =? 0) eqn:E; [apply Z.eqb_eq in E; lia|].
  destruct (n * Wave.framesize w <? 0) eqn:E1; [|apply Z.ltb_ge in E1; nia].
  rewrite Z.ltb_irrefl, Nat2Z.id. cbn [fst snd Wave.rest].
  rewrite firstn_all, drop_all. split; reflexivity.
Qed.

Section DrainedFacts.
Variable env : Env.
Variable config : Config.

(** With nothing left to read the loop is over at its first read. *)
Lemma frame_loop_drained fuel wav cs nc sr tf k s :
  Wave.rest wav = [] ->
  frame_loop env config (S fuel) wav cs nc sr tf k s = (Ok k, s).
Proof.
  intros Hrest. rewrite frame_loop_unfold.
  destruct (WaveFacts.readframes_split wav cs) as (Hsplit & _).
  rewrite Hrest in Hsplit. apply app_eq_nil in Hsplit as [-> _]. reflexivity.
Qed.

End DrainedFacts.

Section OddRateFacts.
Variable env : Env.
Variable config : Config.
Hypothesis color_ok : color_accepted env config.
Hypothesis savefig_always : forall i, savefig_ok env i = true.

Lemma frame_loop_progress cs nc sr tf fuel : forall wav r k s d,
  1 <= cs -> 0 <= r -> 1 <= nc -> sr <> 0 -> (0 < r -> tf <> 0) ->
  Wave.nchannels wav = nc -> Wave.sampwidth wav = 2 ->
  Z.of_nat (length (Wave.rest wav)) = r * Wave.framesize wav ->
  (length (Wave.rest wav) < fuel)%nat ->
  temp s = Dir d ->
  exists ps,
    progress_of (trace (frame_loop env config fuel wav cs nc sr tf k s).2)
    = progress_of (trace s) ++ ps /\
    Z.of_nat (length ps) = ceil_div r cs /\
    (forall j pos tot, ps !! j = Some (pos, tot) ->
       pos = Wave.soundpos wav + Z.min ((Z.of_nat j + 1) * cs) r /\
       tot = tf).
Proof.
  induction fuel as [|fuel IH];
    intros wav r k s d Hcs Hr Hnc Hsr Htf Hch Hsw Hlen Hfuel Hd; [lia|].
  assert (Hfs : Wave.framesize wav = nc * 2)
    by (unfold Wave.framesize; rewrite Hch, Hsw; reflexivity).
  destruct (WaveFacts.readframes_chunk wav cs r) as (Hraw & Hrest & Hpos);
    [lia..|].
  destruct (WaveFacts.readframes_split wav cs) as (_ & _ & Hch' & Hsw' & _).
  pose proof (WaveFacts.readframes_rest_length wav cs) as Hsum.
  rewrite frame_loop_unfold.
  destruct (decide (r = 0)) as [->|Hr0].
  { rewrite Z.min_r in Hraw by lia.
    destruct (Wave.readframes wav cs).1 as [|b raw]; [|simpl in Hraw; lia].
    exists []. simpl. rewrite app_nil_r, ceil_div_0.
    split; [reflexivity|]. split; [reflexivity|].
    intros j pos tot Hj. rewrite lookup_nil in Hj. discriminate. }
  set (m := Z.min cs r) in *. assert (Hm : 1 <= m) by (unfold m; lia).
  destruct (Wave.readframes wav cs).1 as [|b raw] eqn:Eraw;
    [simpl in Hraw; nia|].
  destruct (decode_chunk (b :: raw) nc m) as (data & -> & Hdata);
    [lia|lia|rewrite Hraw, Hfs; reflexivity|].
  rewrite render_frame_run.
  destruct (plot_frame_ok env config data sr color_ok Hsr ltac:(lia))
    as (lo & hi & color & _ & _ & ->).
  cbv zeta. rewrite savefig_always, Hd, progress_run.
  destruct (tf =? 0) eqn:Etf; [apply Z.eqb_eq in Etf; lia|].
  match goal with
  | |- context [frame_loop _ _ _ _ _ _ _ _ _ ?s2] => set (s' := s2)
  end.
  set (p := mkPlot _ _ _ _ _) in *.
  destruct (IH (Wave.readframes wav cs).2 (r - m) (S k) s'
               (<[Paths.frame_name k := PngFrame p]> d))
    as (ps & Htr & Hcount & Hps);
    [lia|unfold m; lia|lia|exact Hsr|intros _; apply Htf; lia
    |congruence|congruence| |simpl in Hsum; lia|reflexivity|].
  { unfold Wave.framesize in *. rewrite Hch', Hsw'. exact Hrest. }
  exists ((Wave.soundpos (Wave.readframes wav cs).2, tf) :: ps).
  split; [|split].
  - rewrite Htr. unfold s'. cbn [trace]. rewrite !progress_of_app.
    cbn [progress_of]. rewrite app_nil_r, <- app_assoc. reflexivity.
  - cbn [length]. rewrite Nat2Z.inj_succ, Hcount.
    rewrite (ceil_div_step r cs) by lia. fold m. lia.
  - intros [|j] pos tot Hj.
    + injection Hj as <- <-. split; [|reflexivity]. rewrite Hpos.
      fold m. unfold m. f_equal. f_equal. lia.
    + simpl in Hj. destruct (Hps j pos tot Hj) as [-> ->].
      split; [|reflexivity]. rewrite Hpos.
      destruct (Z.min_spec cs r) as [[Hlt Hmin]|[Hle Hmin]]; fold m in Hmin.
      * rewrite Hmin. lia.
      * exfalso. rewrite Hmin in Hcount.
        replace (r - r) with 0 in Hcount by ring.
        rewrite ceil_div_0 in Hcount. destruct ps; [|simpl in Hcount; lia].
        rewrite lookup_nil in Hj. discriminate.
Qed.

End OddRateFacts.

(** X7.  For a well-formed stream and a frame rate between 1 and the
    sample rate (colour accepted, every frame written), the loop prints
    one progress line per frame; line [j] reports the position
    [min ((j + 1) * chunk_length) total] out of [total], so the positions
    never decrease and the last line reports the whole stream. *)
Theorem progress_reaches_total env config wav s d :
  Wave.well_formed wav ->
  0 < fps config <= Wave.framerate wav ->
  color_accepted env config ->
  (forall i, savefig_ok env i = true) ->
  temp s = Dir d ->
  let chunk_length := Wave.framerate wav / fps config in
  let total := Wave.nframes wav in
  let final :=
    frame_loop env config (S (length (Wave.rest wav))) wav chunk_length
               (Wave.nchannels wav) (Wave.framerate wav) total 0 s in
  exists ps,
    progress_of (trace final.2) = progress_of (trace s) ++ ps /\
    Z.of_nat (length ps) = ceil_div total chunk_length /\
    (forall j pos tot, ps !! j = Some (pos, tot) ->
       pos = Z.min ((Z.of_nat j + 1) * chunk_length) total /\ tot = total) /\
    (0 < total -> last ps = Some (total, total)).
Proof.
  intros (Hrate & Hch & Hsw & Htot & Hpos & Hlen) Hfps Hcolor Hsave Hd
         chunk_length total final.
  assert (Hchunk : 1 <= chunk_length).
  { unfold chunk_length. apply Z.div_le_lower_bound; lia. }
  destruct (frame_loop_progress env config Hcolor Hsave chunk_length
              (Wave.nchannels wav) (Wave.framerate wav) total
              (S (length (Wave.rest wav))) wav total 0%nat s d)
    as (ps & Htr & Hcount & Hps);
    [lia..|reflexivity|exact Hsw|exact Hlen|lia|exact Hd|].
  fold final in Htr. rewrite Hpos in Hps. exists ps.
  split; [exact Htr|]. split; [exact Hcount|]. split; [exact Hps|].
  intros Hpositive.
  pose proof (ceil_div_spec total chunk_length ltac:(lia)) as [Hlow Hhigh].
  rewrite <- Hcount in Hlow, Hhigh.
  destruct (ps !! (length ps - 1)%nat) as [[pos tot]|] eqn:Elast.
  - rewrite last_lookup.
    replace (Nat.pred (length ps)) with (length ps - 1)%nat by lia.
    rewrite Elast. destruct (Hps _ _ _ Elast) as [-> ->]. f_equal. f_equal.
    apply lookup_lt_Some in Elast. rewrite Z.min_r; [reflexivity|]. nia.
  - apply lookup_ge_None in Elast. nia.
Qed.

(** X8.  A negative frame rate makes the chunk length negative, and a
    negative request reads everything that is left: a non-empty
    well-formed stream is then rendered as one single frame holding all
    its samples, and the loop hands back a frame count of 1. *)
Theorem negative_fps_single_frame env config wav s d :
  Wave.well_formed wav ->
  0 < Wave.nframes wav ->
  fps config < 0 ->
  color_accepted env config ->
  (forall i, savefig_ok env i = true) ->
  temp s = Dir d ->
  let final :=
    frame_loop env config (S (length (Wave.rest wav))) wav
               (Wave.framerate wav / fps config)
               (Wave.nchannels wav) (Wave.framerate wav)
               (Wave.nframes wav) 0 s in
  Wave.framerate wav / fps config < 0 /\
  final.1 = Ok 1%nat /\
  exists p,
    rendered (trace final.2)
    = rendered (trace s) ++ frames_from config 0 [p] /\
    Z.of_nat (Numpy.len (plot_data p)) = Wave.nframes wav.
Proof.
  intros (Hrate & Hch & Hsw & Htot & Hpos & Hlen) Hpositive Hfps Hcolor Hsave
         Hd final.
  assert (Hneg : Wave.framerate wav / fps config < 0).
  { pose proof (Z.div_mod (Wave.framerate wav) (fps config) ltac:(lia)).
    pose proof (Z.mod_neg_bound (Wave.framerate wav) (fps config) Hfps). nia. }
  split; [exact Hneg|]. unfold final. clear final.
  assert (Hfs : Wave.framesize wav = Wave.nchannels wav * 2)
    by (unfold Wave.framesize; rewrite Hsw; reflexivity).
  destruct (readframes_negative wav _ Hneg ltac:(lia)) as [Hall Hnone].
  destruct (length (Wave.rest wav)) as [|fuel] eqn:Efuel; [nia|].
  rewrite frame_loop_unfold, Hall.
  destruct (Wave.rest wav) as [|b raw] eqn:Erest; [discriminate|].
  destruct (decode_chunk (b :: raw) (Wave.nchannels wav) (Wave.nframes wav))
    as (data & -> & Hdata); [lia|lia|rewrite Efuel, Hlen, Hfs; reflexivity|].
  rewrite render_frame_run.
  destruct (plot_frame_ok env config data (Wave.framerate wav) Hcolor
              ltac:(lia) ltac:(lia)) as (lo & hi & color & _ & _ & ->).
  cbv zeta. rewrite Hsave, Hd, progress_run.
  destruct (Wave.nframes wav =? 0) eqn:E; [apply Z.eqb_eq in E; lia|].
  rewrite frame_loop_drained by exact Hnone. cbn [fst snd trace].
  split; [reflexivity|]. eexists. split.
  - rewrite !rendered_app. cbn [rendered]. rewrite app_nil_r.
    rewrite frames_from_cons. reflexivity.
  - exact Hdata.
Qed.

(** X9.  A well-formed stream without any sample frame renders nothing:
    the loop is over at its first read and [convert] goes on to run the
    encoder on an empty frame sequence. *)
Theorem empty_stream_goes_to_encoder env config wav inp out s :
  Wave.well_formed wav ->
  Wave.nframes wav = 0 ->
  fps config <> 0 ->
  open_wav env = Some wav ->
  convert_body env config inp out s
  = encode_video env config inp out 0
                 (mkWorld (temp s) (trace s ++ [EvOpen inp])).
Proof.
  intros (_ & _ & _ & _ & _ & Hlen) Hzero Hfps Hopen.
  assert (Hrest : Wave.rest wav = []).
  { rewrite Hzero in Hlen. destruct (Wave.rest wav); [reflexivity|].
    simpl in Hlen. lia. }
  unfold convert_body, bind, emit, lift, ret, floordiv. rewrite Hopen.
  destruct (fps config =? 0) eqn:E; [apply Z.eqb_eq in E; contradiction|].
  rewrite frame_loop_drained by exact Hrest. reflexivity.
Qed.

Section EarlyFailureFacts.
Variable env : Env.
Variable args : Args.




End EarlyFailureFacts.

(** ** The frame pattern, an occupied workspace path, truncated blocks *)

Lemma get_frame_filename_prefix dir : forall fuel p j,
  no_percent dir = true ->
  Paths.get_frame_filename (String.length dir + fuel) (dir +:+ p) j
  = match Paths.get_frame_filename fuel p j with
    | Some tl => Some (dir +:+ tl)
    | None => None
    end.
Proof.
  induction dir as [|c dir IH]; intros fuel p j Hdir.
  - change (String.length EmptyString + fuel)%nat with fuel.
    change (EmptyString +:+ p) with p.
    destruct (Paths.get_frame_filename fuel p j); reflexivity.
  - simpl in Hdir. apply andb_prop in Hdir as [Hc Hdir].
    apply negb_true_iff in Hc.
    change (String c dir +:+ p) with (String c (dir +:+ p)).
    change (String.length (String c dir) + fuel)%nat
      with (S (String.length dir + fuel)).
    cbn [Paths.get_frame_filename]. rewrite Hc, IH by exact Hdir.
    destruct (Paths.get_frame_filename fuel p j); reflexivity.
Qed.

(** X12.  For a workspace directory whose name holds no percent sign, the
    pattern handed to the encoder expands, for every frame number, to
    the very path the frame of that number is written to. *)
Theorem encoder_pattern_meets_frame_paths config inp out j :
  no_percent (temp_dir config) = true ->
  Paths.expand_pattern (nth 5 (ffmpeg_cmd config inp out) EmptyString) j
  = Some (Paths.join (temp_dir config) (Paths.frame_name j)).
Proof.
  intros Hdir. cbn [ffmpeg_cmd nth]. unfold Paths.expand_pattern, Paths.join.
  rewrite PathsFacts.length_append.
  change (S (String.length (temp_dir config)
             + String.length ("/" +:+ "frame_%05d.png")))
    with (S (String.length (temp_dir config) + 15)).
  rewrite <- Nat.add_succ_r.
  rewrite get_frame_filename_prefix by exact Hdir. reflexivity.
Qed.


Section BlockFacts.
Import Numpy.

Lemma frombuffer_int16_length raw : forall xs,
  frombuffer_int16 raw = Some xs -> length raw = (2 * length xs)%nat.
Proof.
  induction raw as [raw IH] using (induction_ltof1 _ (@length byte)).
  unfold ltof in IH. intros xs Hxs.
  destruct raw as [|lo [|hi raw']]; simpl in Hxs; try discriminate.
  - injection Hxs as <-. reflexivity.
  - destruct (frombuffer_int16 raw') as [ys|] eqn:Eys; [|discriminate].
    injection Hxs as <-. simpl. rewrite (IH raw' ltac:(simpl; lia) ys Eys).
    lia.
Qed.

(** X14.  The decoding step accepts a block exactly when it holds a
    whole number of 16-bit samples and, for more than one channel, a
    whole number of sample frames; any other block (the tail of a
    truncated file, say) raises [ValueError]. *)
Theorem decode_accepts_whole_frames raw_data num_channels :
  let whole :=
    (length raw_data mod 2 = 0)%nat /\
    (1 < num_channels ->
     ((length raw_data / 2) mod Z.to_nat num_channels = 0)%nat) in
  ((exists data, decode raw_data num_channels = Ok data) <-> whole) /\
  (decode raw_data num_channels = Raise ValueError <-> ~ whole).
Proof.
  intros whole.
  assert (Hcases :
            (exists data, decode raw_data num_channels = Ok data) /\ whole \/
            decode raw_data num_channels = Raise ValueError /\ ~ whole).
  { unfold whole, decode.
    destruct (frombuffer_int16 raw_data) as [xs|] eqn:Exs.
    - pose proof (frombuffer_int16_length raw_data xs Exs) as Hlen.
      assert (Hhalf : (length raw_data / 2 = length xs)%nat).
      { rewrite Hlen, Nat.mul_comm. apply Nat.div_mul. lia. }
      assert (Heven : (length raw_data mod 2 = 0)%nat).
      { rewrite Hlen, Nat.mul_comm. apply Nat.Div0.mod_mul. }
      rewrite Hhalf. unfold downmix.
      destruct (1 <? num_channels) eqn:E.
      + apply Z.ltb_lt in E. unfold reshape_rows.
        destruct (Z.to_nat num_channels) as [|n'] eqn:En; [lia|].
        destruct (_ =? 0)%nat eqn:Emod.
        * left. apply Nat.eqb_eq in Emod. split; [eexists; reflexivity|].
          split; [exact Heven|intros _; exact Emod].
        * right. apply Nat.eqb_neq in Emod. split; [reflexivity|].
          intros [_ H]. apply Emod, H, E.
      + apply Z.ltb_ge in E. left. split; [eexists; reflexivity|].
        split; [exact Heven|intros; lia].
    - right. split; [reflexivity|]. intros [Heven _].
      destruct (NumpyFacts.frombuffer_int16_even (length raw_data / 2) raw_data)
        as (xs & Hxs & _); [|congruence].
      pose proof (Nat.div_mod_eq (length raw_data) 2). lia. }
  split; split.
  - intros Hok. destruct Hcases as [[_ Hw]|[Herr _]]; [exact Hw|].
    destruct Hok as [data Hd]. congruence.
  - intros Hw. destruct Hcases as [[Hok _]|[_ Hn]]; [exact Hok|contradiction].
  - intros Herr. destruct Hcases as [[[data Hd] _]|[_ Hn]]; [congruence|exact Hn].
  - intros Hn. destruct Hcases as [[_ Hw]|[Herr _]]; [contradiction|exact Herr].
Qed.

End BlockFacts.

(** ** The further statements at concrete inputs *)

(** C3 at four samples of silence: the axis runs from -0.05 to 0.05. *)
Lemma constant_chunk_axis_span_witness :
  exists p,
    plot_frame example_env DEFAULT_CONFIG (silent_chunk 4) 44100 = Ok p /\
    axis_ylim p = ((- (5 # 100))%Q, (5 # 100)%Q).
Proof.
  destruct (constant_chunk_axis_span example_env DEFAULT_CONFIG
              (silent_chunk 4) 44100
              (example_color_accepted DEFAULT_CONFIG eq_refl)
              ltac:(discriminate) ltac:(simpl; lia))
    as (p & Hp & _ & Hconst).
  exists p. split; [exact Hp|].
  destruct (Hconst 0%Q 3%nat eq_refl) as (_ & _ & _ & Hsilent).
  apply Hsilent. reflexivity.
Defined.

(** X1 at a concrete input. *)
Lemma ylim_encloses_series_witness :
  exists p,
    plot_frame example_env DEFAULT_CONFIG loud_chunk 44100 = Ok p /\
    (fst (plot_ylim p) <= snd (plot_ylim p))%Q.
Proof.
  eexists. split; [reflexivity|].
  exact (proj1 (ylim_encloses_series example_env DEFAULT_CONFIG loud_chunk
                  44100 _ eq_refl)).
Defined.

(** X2 at a concrete input. *)
Lemma decode_within_int16_range_witness :
  exists data,
    decode stereo_block 2 = Ok data /\
    forall v, In v (Numpy.values data) -> in_int16_range v.
Proof.
  eexists. split; [reflexivity|].
  exact (decode_within_int16_range stereo_block 2 _ eq_refl).
Defined.

(** X3 at a concrete input. *)
Lemma hex_to_rgba_ignores_tail_witness :
  hex_to_rgba example_env "#C0485180" = hex_to_rgba example_env "#C04851".
Proof.
  exact (proj1 (hex_to_rgba_ignores_tail example_env "#C04851" "80"
                  ltac:(simpl; lia))).
Defined.

(** X4 at a concrete input. *)
Lemma short_colour_rejected_witness :
  render_frame example_env shorthand_config (silent_chunk 4) 0 44100
               (initial_world (Dir ∅))
  = (Raise ValueError, initial_world (Dir ∅)).
Proof.
  exact (proj2 (short_colour_rejected example_env shorthand_config
                  (silent_chunk 4) 0 44100 (initial_world (Dir ∅))
                  eq_refl ltac:(simpl; lia) ltac:(discriminate))).
Defined.


(** X6 at a concrete input. *)
Lemma frame_loop_files_witness :
  exists d',
    temp (frame_loop example_env (config_of example_args)
                     (S (length (Wave.rest example_wav))) example_wav 2 1 4 5 0
                     (initial_world occupied_workspace)).2 = Dir d' /\
    d' !! "notes.txt" = Some OtherFile.
Proof.
  destruct (frame_loop_files example_env (config_of example_args)
              (S (length (Wave.rest example_wav))) example_wav 2 1 4 5 0%nat
              (initial_world occupied_workspace) _ eq_refl)
    as (d' & plots & Hd' & _ & Hkeep & _).
  exists d'. split; [exact Hd'|]. rewrite Hkeep; [reflexivity|].
  intros j _. discriminate.
Defined.

(** X7 at a concrete input. *)
Lemma progress_reaches_total_witness :
  exists ps,
    progress_of
      (trace (frame_loop example_env (config_of example_args)
                (S (length (Wave.rest example_wav))) example_wav
                (Wave.framerate example_wav / fps (config_of example_args))
                (Wave.nchannels example_wav) (Wave.framerate example_wav)
                (Wave.nframes example_wav) 0 (initial_world (Dir ∅))).2)
    = ps /\
    last ps = Some (5, 5).
Proof.
  destruct (progress_reaches_total example_env (config_of example_args)
              example_wav (initial_world (Dir ∅)) ∅
              example_wav_well_formed
              ltac:(split; [reflexivity|discriminate])
              (example_color_accepted (config_of example_args) eq_refl)
              (fun _ => eq_refl) eq_refl)
    as (ps & Htr & _ & _ & Hlast).
  exists ps. split; [exact Htr|]. exact (Hlast eq_refl).
Defined.

(** X8 at a concrete input. *)
Lemma negative_fps_single_frame_witness :
  (frame_loop example_env backwards_config
              (S (length (Wave.rest example_wav))) example_wav
              (Wave.framerate example_wav / fps backwards_config)
              (Wave.nchannels example_wav) (Wave.framerate example_wav)
              (Wave.nframes example_wav) 0 (initial_world (Dir ∅))).1
  = Ok 1%nat.
Proof.
  exact (proj1 (proj2 (negative_fps_single_frame example_env backwards_config
                         example_wav (initial_world (Dir ∅)) ∅
                         example_wav_well_formed eq_refl eq_refl
                         (example_color_accepted backwards_config eq_refl)
                         (fun _ => eq_refl) eq_refl))).
Defined.

Lemma empty_wav_well_formed : Wave.well_formed empty_wav.
Proof.
  unfold Wave.well_formed. vm_compute.
  repeat split; try reflexivity; discriminate.
Defined.

(** X9 at a concrete input. *)
Lemma empty_stream_goes_to_encoder_witness :
  convert_body empty_stream_env DEFAULT_CONFIG "in.wav" "output.mov"
               (initial_world (Dir ∅))
  = encode_video empty_stream_env DEFAULT_CONFIG "in.wav" "output.mov" 0
                 (mkWorld (Dir ∅) [EvOpen "in.wav"]).
Proof.
  exact (empty_stream_goes_to_encoder empty_stream_env DEFAULT_CONFIG
           empty_wav "in.wav" "output.mov" (initial_world (Dir ∅))
           empty_wav_well_formed eq_refl ltac:(discriminate) eq_refl).
Defined.



(** X12 at a concrete input. *)
Lemma encoder_pattern_meets_frame_paths_witness :
  Paths.expand_pattern
    (nth 5 (ffmpeg_cmd DEFAULT_CONFIG "in.wav" "output.mov") EmptyString) 42
  = Some (Paths.join "_frames" (Paths.frame_name 42)).
Proof.
  exact (encoder_pattern_meets_frame_paths DEFAULT_CONFIG "in.wav"
           "output.mov" 42 eq_refl).
Defined.

